(** * hw_final.py: an in-memory contact book with validated fields

    A shallow embedding of [src/hw_final.py] and the properties of its
    fields, records, address book and command handlers.

    Modelling conventions.
    - A Python [str] is a Rocq [string]; each [ascii] stands for ONE code
      point in U+0000..U+00FF (it is not a UTF-8 byte).  The character
      predicates below are Python's on that range.
    - Exceptions are values of [exn]; code that can raise returns [res].
    - The address book is a Python [dict]: an association list in
      insertion order whose keys are pairwise distinct ([dict_wf]).
    - Records live in the book by reference; a handler that mutates the
      record it looked up writes it back under the key it was found at.
    - [datetime.date] values are represented by their proleptic Gregorian
      ordinal ([date.toordinal()]), which determines the date
      ([ymd2ord_inj]); the library functions follow CPython's
      [Lib/_pydatetime.py] and [Lib/_strptime.py].
    - [main] is run on the list of the lines that [input] returns; what it
      prints is the list of the objects given to [print] (the prompt of
      [input] is not part of it). *)

From Stdlib Require Import ZArith Lia Bool List Ascii String.
Import ListNotations.
Open Scope string_scope.
Open Scope Z_scope.

(* ------------------------------------------------------------------ *)
(** ** Characters and Python string predicates *)

Module PyStr.

(** Code point of a character. *)
Definition ord (c : ascii) : Z := Z.of_N (N_of_ascii c).

Definition in_range (lo hi : ascii) (c : ascii) : bool :=
  (ord lo <=? ord c) && (ord c <=? ord hi).

(** [\d] of a [re] pattern over [str]: Unicode category Nd, which below
    U+0100 is exactly '0'..'9'. *)
Definition is_decimal (c : ascii) : bool := in_range "0" "9" c.

(** One character of [str.isdigit]: Numeric_Type Decimal or Digit.  Below
    U+0100 these are '0'..'9' and the superscripts U+00B2, U+00B3, U+00B9. *)
Definition isdigit_char (c : ascii) : bool :=
  is_decimal c || (ord c =? 178) || (ord c =? 179) || (ord c =? 185).

(** One character of [str.isalpha]: general category L*.  Below U+0100:
    A-Z, a-z, U+00AA, U+00B5, U+00BA, U+00C0-U+00D6, U+00D8-U+00F6,
    U+00F8-U+00FF. *)
Definition isalpha_char (c : ascii) : bool :=
  in_range "A" "Z" c || in_range "a" "z" c
  || (ord c =? 170) || (ord c =? 181) || (ord c =? 186)
  || ((192 <=? ord c) && (ord c <=? 214))
  || ((216 <=? ord c) && (ord c <=? 246))
  || ((248 <=? ord c) && (ord c <=? 255)).

Fixpoint all_chars (p : ascii -> bool) (s : string) : bool :=
  match s with
  | EmptyString => true
  | String c s' => p c && all_chars p s'
  end.

Definition nonempty (s : string) : bool :=
  match s with EmptyString => false | String _ _ => true end.

(** [s.isdigit()] and [s.isalpha()]: false on the empty string. *)
Definition isdigit (s : string) : bool := nonempty s && all_chars isdigit_char s.
Definition isalpha (s : string) : bool := nonempty s && all_chars isalpha_char s.

(** [len(s)] *)
Definition len (s : string) : Z := Z.of_nat (String.length s).

(** [sep.join(xs)] *)
Fixpoint join (sep : string) (xs : list string) : string :=
  match xs with
  | [] => ""
  | [x] => x
  | x :: rest => x ++ sep ++ join sep rest
  end.

End PyStr.
Import PyStr.

(* ------------------------------------------------------------------ *)
(** ** Exceptions *)

(** The exceptions the program can meet.  [input_error] catches the first
    three; [OverflowError] is what [date + timedelta] raises out of range. *)
Inductive exn : Type :=
| ValueError
| KeyError
| IndexError
| OverflowError.

Inductive res (A : Type) : Type :=
| Ok (a : A)
| Raise (e : exn).
Arguments Ok {A} a.
Arguments Raise {A} e.

Definition rbind {A B : Type} (r : res A) (k : A -> res B) : res B :=
  match r with
  | Ok a => k a
  | Raise e => Raise e
  end.

Definition is_ok {A : Type} (r : res A) : bool :=
  match r with Ok _ => true | Raise _ => false end.

(* ------------------------------------------------------------------ *)
(** ** Fields *)

(** [class Field]: a holder of one string. *)
Record Field : Type := mkField { value : string }.

(** [Field.__str__] *)
Definition Field_str (f : Field) : string := value f.

(** [Name.__init__] *)
Definition Name (v : string) : res Field :=
  if negb (isalpha v) || (len v <? 2) then Raise ValueError
  else Ok (mkField v).

(** [Phone.__init__] *)
Definition Phone (v : string) : res Field :=
  if negb (isdigit v) || negb (len v =? 10) then Raise ValueError
  else Ok (mkField v).

(* ------------------------------------------------------------------ *)
(** ** The [datetime] library, as far as the program uses it *)

Module PyDate.

Definition MINYEAR : Z := 1.
Definition MAXYEAR : Z := 9999.
Definition MAXORDINAL : Z := 3652059.

(** A [datetime.date], held as its proleptic Gregorian ordinal
    (day 1 is 0001-01-01). *)
Definition date : Type := Z.

Definition toordinal (d : date) : Z := d.

Definition is_leap (year : Z) : bool :=
  (year mod 4 =? 0) && (negb (year mod 100 =? 0) || (year mod 400 =? 0)).

Definition days_before_year (year : Z) : Z :=
  let y := year - 1 in
  y * 365 + y / 4 - y / 100 + y / 400.

Definition DAYS_IN_MONTH : list Z :=
  [-1; 31; 28; 31; 30; 31; 30; 31; 31; 30; 31; 30; 31].

Definition DAYS_BEFORE_MONTH : list Z :=
  [-1; 0; 31; 59; 90; 120; 151; 181; 212; 243; 273; 304; 334].

Definition days_in_month (year month : Z) : Z :=
  if (month =? 2) && is_leap year then 29
  else nth (Z.to_nat month) DAYS_IN_MONTH 0.

Definition days_before_month (year month : Z) : Z :=
  nth (Z.to_nat month) DAYS_BEFORE_MONTH 0
  + (if (2 <? month) && is_leap year then 1 else 0).

Definition ymd2ord (year month day : Z) : Z :=
  days_before_year year + days_before_month year month + day.

(** [date(year, month, day)] with its field check. *)
Definition mkdate (year month day : Z) : res date :=
  if negb ((MINYEAR <=? year) && (year <=? MAXYEAR)) then Raise ValueError
  else if negb ((1 <=? month) && (month <=? 12)) then Raise ValueError
  else if negb ((1 <=? day) && (day <=? days_in_month year month))
       then Raise ValueError
  else Ok (ymd2ord year month day).

(** [(d1 - d2).days] *)
Definition sub_days (d1 d2 : date) : Z := toordinal d1 - toordinal d2.

(** [d + timedelta(days=n)]: the date whose ordinal is [n] more, inside
    the range of dates. *)
Definition add_days (d : date) (n : Z) : res date :=
  let o := toordinal d + n in
  if (0 <? o) && (o <=? MAXORDINAL) then Ok o else Raise OverflowError.

(** [d.weekday()]: Monday is 0. *)
Definition weekday (d : date) : Z := (toordinal d + 6) mod 7.

Definition DAY_NAMES : list string :=
  ["Monday"; "Tuesday"; "Wednesday"; "Thursday"; "Friday"; "Saturday";
   "Sunday"].

(** [d.strftime("%A")] *)
Definition strftime_A (d : date) : string :=
  nth (Z.to_nat (weekday d)) DAY_NAMES "".

(** *** [re] matching, as a list of successes in the order a backtracking
    engine tries them: each success is the matched text and what follows. *)

Definition parser : Type := string -> list (string * string).

Definition cls (p : ascii -> bool) : parser :=
  fun s =>
    match s with
    | String a r => if p a then [(String a "", r)] else []
    | EmptyString => []
    end.

Definition chr (c : ascii) : parser := cls (Ascii.eqb c).

Definition cat (p q : parser) : parser :=
  fun s =>
    flat_map (fun '(t1, r1) => map (fun '(t2, r2) => (t1 ++ t2, r2)) (q r1))
             (p s).

Definition alt (ps : list parser) : parser :=
  fun s => flat_map (fun p => p s) ps.

(** The directives of [_strptime.TimeRE]:
    %d is [3[0-1]|[1-2]\d|0[1-9]|[1-9]| [1-9]],
    %m is [1[0-2]|0[1-9]|[1-9]], %Y is [\d\d\d\d]. *)
Definition re_d : parser :=
  alt [ cat (chr "3") (cls (in_range "0" "1"));
        cat (cls (in_range "1" "2")) (cls is_decimal);
        cat (chr "0") (cls (in_range "1" "9"));
        cls (in_range "1" "9");
        cat (chr " ") (cls (in_range "1" "9")) ].

Definition re_m : parser :=
  alt [ cat (chr "1") (cls (in_range "0" "2"));
        cat (chr "0") (cls (in_range "1" "9"));
        cls (in_range "1" "9") ].

Definition re_Y : parser :=
  cat (cls is_decimal) (cat (cls is_decimal)
      (cat (cls is_decimal) (cls is_decimal))).

(** The compiled pattern of the format ['%d.%m.%Y']: the groups d, m, Y
    and the unmatched remainder, for every way of matching a prefix. *)
Definition format_regex (s : string)
  : list ((string * string * string) * string) :=
  flat_map (fun '(d, r1) =>
  flat_map (fun '(_, r2) =>
  flat_map (fun '(m, r3) =>
  flat_map (fun '(_, r4) =>
  map (fun '(y, r5) => ((d, m, y), r5)) (re_Y r4))
    (chr "." r3)) (re_m r2)) (chr "." r1)) (re_d s).

(** [int(text)] on the texts a group can hold: blanks, then decimal
    digits. *)
Fixpoint lstrip (s : string) : string :=
  match s with
  | String c r => if Ascii.eqb c " " then lstrip r else s
  | EmptyString => s
  end.

Fixpoint digits_value (acc : Z) (s : string) : res Z :=
  match s with
  | EmptyString => Ok acc
  | String c r =>
      if is_decimal c then digits_value (10 * acc + (ord c - 48)) r
      else Raise ValueError
  end.

Definition int (s : string) : res Z :=
  let t := lstrip s in
  if nonempty t then digits_value 0 t else Raise ValueError.

(** [datetime.strptime(s, '%d.%m.%Y').date()]: the first match of the
    pattern must consume the whole string, and the fields must form a
    date. *)
Definition strptime (s : string) : res date :=
  match format_regex s with
  | [] => Raise ValueError
  | ((d, m, y), rest) :: _ =>
      if nonempty rest then Raise ValueError
      else
        rbind (int y) (fun year =>
        rbind (int m) (fun month =>
        rbind (int d) (fun day =>
        mkdate year month day)))
  end.

End PyDate.

(** [Birthday.__init__]: a [ValueError] of [strptime] is raised again as
    a [ValueError] with the message of the class; the parsed date is
    dropped and the text is stored. *)
Definition Birthday (v : string) : res Field :=
  match PyDate.strptime v with
  | Ok _ => Ok (mkField v)
  | Raise ValueError => Raise ValueError
  | Raise e => Raise e
  end.

(* ------------------------------------------------------------------ *)
(** ** Records *)

(** [class Record]: one name, the phones in order, an optional birthday. *)
Record ContactRecord : Type := mkRecord {
  name : Field;
  phones : list Field;
  birthday : option Field
}.

(** [Record.__init__] *)
Definition Record_init (n : string) : res ContactRecord :=
  rbind (Name n) (fun nm => Ok (mkRecord nm [] None)).

(** [Record.add_phone] *)
Definition add_phone (r : ContactRecord) (phone : string)
  : res ContactRecord :=
  rbind (Phone phone) (fun p =>
    Ok (mkRecord (name r) (phones r ++ [p])%list (birthday r))).

(** The loop of [Record.edit_phone]: every entry is compared with
    [old_phone] in turn and assigned [new_phone] when equal; the loop has
    no [break] and builds no [Phone]. *)
Fixpoint edit_phone_loop (ps : list Field) (old_phone new_phone : string)
  : list Field :=
  match ps with
  | [] => []
  | p :: rest =>
      (if String.eqb (value p) old_phone then mkField new_phone else p)
        :: edit_phone_loop rest old_phone new_phone
  end.

(** [Record.edit_phone] *)
Definition edit_phone (r : ContactRecord) (old_phone new_phone : string)
  : res ContactRecord :=
  Ok (mkRecord (name r) (edit_phone_loop (phones r) old_phone new_phone)
               (birthday r)).

(** [Record.add_birthday] *)
Definition add_birthday (r : ContactRecord) (b : string)
  : res ContactRecord :=
  rbind (Birthday b) (fun f => Ok (mkRecord (name r) (phones r) (Some f))).

(** [Record.find_phone] *)
Fixpoint find_phone_loop (ps : list Field) (phone : string) : option Field :=
  match ps with
  | [] => None
  | p :: rest =>
      if String.eqb (value p) phone then Some p
      else find_phone_loop rest phone
  end.

Definition find_phone (r : ContactRecord) (phone : string) : option Field :=
  find_phone_loop (phones r) phone.

(** [Record.__str__] *)
Definition Record_str (r : ContactRecord) : string :=
  let phone_str := join "; " (map Field_str (phones r)) in
  let birthday_str :=
    match birthday r with
    | Some b => Field_str b
    | None => "Not specified"
    end in
  "Contact name: " ++ value (name r) ++ ", phones: " ++ phone_str
    ++ ", birthday: " ++ birthday_str.

(* ------------------------------------------------------------------ *)
(** ** Python dictionaries with string keys *)

Section Dict.

Context {V : Type}.

(** Entries in insertion order. *)
Definition dict : Type := list (string * V).

Definition dict_keys (d : dict) : list string := map fst d.
Definition dict_values (d : dict) : list V := map snd d.

(** The keys of a dictionary are pairwise distinct. *)
Definition dict_wf (d : dict) : Prop := NoDup (dict_keys d).

(** [d.get(k)] *)
Fixpoint dict_get (k : string) (d : dict) : option V :=
  match d with
  | [] => None
  | (k', v) :: rest => if String.eqb k' k then Some v else dict_get k rest
  end.

(** [k in d] *)
Definition dict_contains (k : string) (d : dict) : bool :=
  match dict_get k d with Some _ => true | None => false end.

(** [d[k] = v]: an existing key keeps its place, a new key goes last. *)
Fixpoint dict_set (k : string) (v : V) (d : dict) : dict :=
  match d with
  | [] => [(k, v)]
  | (k', v') :: rest =>
      if String.eqb k' k then (k', v) :: rest
      else (k', v') :: dict_set k v rest
  end.

(** [del d[k]], for a key that is present. *)
Fixpoint dict_del (k : string) (d : dict) : dict :=
  match d with
  | [] => []
  | (k', v') :: rest =>
      if String.eqb k' k then rest else (k', v') :: dict_del k rest
  end.

(** [d[k]] *)
Definition dict_getitem (k : string) (d : dict) : res V :=
  match dict_get k d with
  | Some v => Ok v
  | None => Raise KeyError
  end.

End Dict.
Arguments dict V : clear implicits.

(* ------------------------------------------------------------------ *)
(** ** The address book *)

Definition AddressBook : Type := dict ContactRecord.

Definition empty_book : AddressBook := [].

(** [AddressBook.add_record] *)
Definition add_record (record : ContactRecord) (book : AddressBook)
  : AddressBook :=
  dict_set (value (name record)) record book.

(** [AddressBook.find] *)
Definition find (n : string) (book : AddressBook) : option ContactRecord :=
  dict_get n book.

(** [AddressBook.delete] *)
Definition delete (n : string) (book : AddressBook) : AddressBook :=
  if dict_contains n book then dict_del n book else book.

Definition BUCKETS : list string :=
  ["Monday"; "Tuesday"; "Wednesday"; "Thursday"; "Friday"; "Next Monday"].

(** The initial value of [birthdays_per_week]. *)
Definition empty_week : dict (list string) :=
  map (fun day => (day, [])) BUCKETS.

(** [week[day].append(n)] *)
Definition bucket_append (day n : string) (week : dict (list string))
  : res (dict (list string)) :=
  rbind (dict_getitem day week) (fun names =>
    Ok (dict_set day (names ++ [n])%list week)).

(** One turn of the loop of [get_birthdays_per_week]. *)
Definition birthdays_step (today : PyDate.date) (record : ContactRecord)
    (week : dict (list string)) : res (dict (list string)) :=
  match birthday record with
  | None => Ok week
  | Some b =>
      rbind (PyDate.strptime (value b)) (fun birthday_date =>
      let delta_days := PyDate.sub_days birthday_date today in
      if (0 <=? delta_days) && (delta_days <? 7) then
        rbind (PyDate.add_days today delta_days) (fun d =>
        let day_of_week := PyDate.strftime_A d in
        if existsb (String.eqb day_of_week) ["Saturday"; "Sunday"]
        then bucket_append "Next Monday" (value (name record)) week
        else bucket_append day_of_week (value (name record)) week)
      else Ok week)
  end.

Fixpoint birthdays_loop (today : PyDate.date) (records : list ContactRecord)
    (week : dict (list string)) : res (dict (list string)) :=
  match records with
  | [] => Ok week
  | record :: rest =>
      rbind (birthdays_step today record week) (birthdays_loop today rest)
  end.

(** [AddressBook.get_birthdays_per_week], with [datetime.now().date()]
    given as [today]. *)
Definition get_birthdays_per_week (today : PyDate.date) (book : AddressBook)
  : res (dict (list string)) :=
  birthdays_loop today (dict_values book) empty_week.

(* ------------------------------------------------------------------ *)
(** ** Command handlers *)

(** What a handler returns: a string or a list of strings. *)
Inductive pyval : Type :=
| VStr (s : string)
| VList (l : list string).

(** A computation over the one book of the process: it may raise, and the
    book it leaves behind is kept in either case. *)
Definition M (A : Type) : Type := AddressBook -> res A * AddressBook.

Definition ret {A : Type} (a : A) : M A := fun book => (Ok a, book).

Definition bind {A B : Type} (m : M A) (k : A -> M B) : M B :=
  fun book =>
    match m book with
    | (Ok a, book') => k a book'
    | (Raise e, book') => (Raise e, book')
    end.

Definition lift {A : Type} (r : res A) : M A := fun book => (r, book).

Definition get_book : M AddressBook := fun book => (Ok book, book).

Definition modify_book (f : AddressBook -> AddressBook) : M unit :=
  fun book => (Ok tt, f book).

Declare Scope monad_scope.
Delimit Scope monad_scope with monad.
Notation "x <- c1 ;; c2" := (bind c1 (fun x => c2))
  (at level 61, c1 at next level, right associativity) : monad_scope.
Notation "c1 ;; c2" := (bind c1 (fun _ => c2))
  (at level 61, right associativity) : monad_scope.
Open Scope monad_scope.

Definition MSG_VALUE : string := "Give me name and phone please.".
Definition MSG_KEY : string := "Contact not found.".
Definition MSG_INDEX : string :=
  "Invalid input. Please provide the required information.".

(** The decorator [input_error]: three kinds of exception become a
    message, anything else passes through. *)
Definition input_error (func : M pyval) : M pyval :=
  fun book =>
    match func book with
    | (Ok v, book') => (Ok v, book')
    | (Raise ValueError, book') => (Ok (VStr MSG_VALUE), book')
    | (Raise KeyError, book') => (Ok (VStr MSG_KEY), book')
    | (Raise IndexError, book') => (Ok (VStr MSG_INDEX), book')
    | (Raise e, book') => (Raise e, book')
    end.

(** [xs[i]] *)
Definition getitem {A : Type} (xs : list A) (i : nat) : res A :=
  match nth_error xs i with
  | Some x => Ok x
  | None => Raise IndexError
  end.

(** The record found under [key] was changed in place to [record]. *)
Definition store (key : string) (record : ContactRecord) : M unit :=
  modify_book (dict_set key record).

Definition handle_add_func (args : list string) : M pyval :=
  match args with
  | [n; phone] =>
      record <- lift (Record_init n) ;;
      record <- lift (add_phone record phone) ;;
      modify_book (add_record record) ;;
      ret (VStr "Contact added.")
  | _ => ret (VStr "Invalid input. Please provide a name and a phone number.")
  end.

Definition handle_add (args : list string) : M pyval :=
  input_error (handle_add_func args).

Definition handle_change_func (args : list string) : M pyval :=
  match args with
  | [n; new_phone] =>
      book <- get_book ;;
      match find n book with
      | Some record =>
          first <- lift (getitem (phones record) 0) ;;
          record' <- lift (edit_phone record (value first) new_phone) ;;
          store n record' ;;
          ret (VStr "Contact updated.")
      | None => ret (VStr "Contact not found.")
      end
  | _ =>
      ret (VStr "Invalid input. Please provide a name and a new phone number.")
  end.

Definition handle_change (args : list string) : M pyval :=
  input_error (handle_change_func args).

Definition handle_phone_func (args : list string) : M pyval :=
  match args with
  | [n] =>
      book <- get_book ;;
      match find n book with
      | Some record =>
          first <- lift (getitem (phones record) 0) ;;
          ret (VStr (value first))
      | None => ret (VStr "Contact not found.")
      end
  | _ => ret (VStr "Invalid input. Please provide a name.")
  end.

Definition handle_phone (args : list string) : M pyval :=
  input_error (handle_phone_func args).

Definition handle_all_func : M pyval :=
  book <- get_book ;;
  ret (VList (map Record_str (dict_values book))).

Definition handle_all : M pyval := input_error handle_all_func.

Definition handle_add_birthday_func (args : list string) : M pyval :=
  match args with
  | [n; b] =>
      book <- get_book ;;
      match find n book with
      | Some record =>
          record' <- lift (add_birthday record b) ;;
          store n record' ;;
          ret (VStr "Birthday added.")
      | None => ret (VStr "Contact not found.")
      end
  | _ =>
      ret (VStr
        "Invalid input. Please provide a name and a birthday (DD.MM.YYYY).")
  end.

Definition handle_add_birthday (args : list string) : M pyval :=
  input_error (handle_add_birthday_func args).

Definition handle_show_birthday_func (args : list string) : M pyval :=
  match args with
  | [n] =>
      book <- get_book ;;
      match find n book with
      | Some (mkRecord _ _ (Some b)) => ret (VStr (value b))
      | _ => ret (VStr "Contact not found or birthday not specified.")
      end
  | _ => ret (VStr "Invalid input. Please provide a name.")
  end.

Definition handle_show_birthday (args : list string) : M pyval :=
  input_error (handle_show_birthday_func args).

(** The messages of [handle_birthdays], one per bucket that has names. *)
Fixpoint birthday_messages (items : dict (list string)) : list string :=
  match items with
  | [] => []
  | (day, []) :: rest => birthday_messages rest
  | (day, names) :: rest =>
      ("Next " ++ day ++ ": " ++ join ", " names) :: birthday_messages rest
  end.

Definition handle_birthdays_func (today : PyDate.date) : M pyval :=
  book <- get_book ;;
  birthdays <- lift (get_birthdays_per_week today book) ;;
  ret (VList (birthday_messages birthdays)).

Definition handle_birthdays (today : PyDate.date) : M pyval :=
  input_error (handle_birthdays_func today).

Definition handle_help : string :=
  "Available commands: add, change, phone, all, add-birthday, show-birthday, birthdays, hello, close, exit".

(** The handlers that [main] calls with the book. *)
Inductive handler : Type :=
| H_add
| H_change
| H_phone
| H_all
| H_add_birthday
| H_show_birthday
| H_birthdays.

(** A call of a handler; [handle_all] and [handle_birthdays] take no
    argument list. *)
Definition call (today : PyDate.date) (h : handler) (args : list string)
  : M pyval :=
  match h with
  | H_add => handle_add args
  | H_change => handle_change args
  | H_phone => handle_phone args
  | H_all => handle_all
  | H_add_birthday => handle_add_birthday args
  | H_show_birthday => handle_show_birthday args
  | H_birthdays => handle_birthdays today
  end.

(** The books that the public operations can build from the empty one. *)
Inductive reachable : AddressBook -> Prop :=
| reach_empty : reachable empty_book
| reach_add_record (record : ContactRecord) (book : AddressBook) :
    reachable book -> reachable (add_record record book)
| reach_delete (n : string) (book : AddressBook) :
    reachable book -> reachable (delete n book)
| reach_call (today : PyDate.date) (h : handler) (args : list string)
    (book : AddressBook) :
    reachable book -> reachable (snd (call today h args book)).

(* ------------------------------------------------------------------ *)
(** ** Sample values *)

(** U+00B2 SUPERSCRIPT TWO, one character. *)
Definition SUPERSCRIPT_TWO : ascii := "178"%char.

Definition ten_superscripts : string :=
  string_of_list_ascii (repeat SUPERSCRIPT_TWO 10).

(** The record named [n] with the phones [ps] and no birthday. *)
Definition record_of (n : string) (ps : list string) : ContactRecord :=
  mkRecord (mkField n) (map mkField ps) None.

(* ------------------------------------------------------------------ *)
(** ** Vocabulary of the statements *)

(** Every record of the book is stored under its own name. *)
Definition keyed_by_name (book : AddressBook) : Prop :=
  Forall (fun e => value (name (snd e)) = fst e) book.

(** [edit_phone] read from its description: [new] is validated as a
    [Phone] first, and only the first entry equal to [old] is replaced. *)
Fixpoint replace_first (ps : list Field) (old_phone : string) (p' : Field)
  : list Field :=
  match ps with
  | [] => []
  | p :: rest =>
      if String.eqb (value p) old_phone then p' :: rest
      else p :: replace_first rest old_phone p'
  end.

Definition edit_phone_described (r : ContactRecord)
    (old_phone new_phone : string) : res ContactRecord :=
  rbind (Phone new_phone) (fun p' =>
    Ok (mkRecord (name r) (replace_first (phones r) old_phone p')
                 (birthday r))).

Import PyDate.

(** Sets of texts, built like the patterns. *)
Definition lang : Type := string -> Prop.

Definition lang_cls (p : ascii -> bool) : lang :=
  fun t => exists a, t = String a "" /\ p a = true.

Definition lang_cat (L1 L2 : lang) : lang :=
  fun t => exists t1 t2, t = t1 ++ t2 /\ L1 t1 /\ L2 t2.

Definition lang_alt (Ls : list lang) : lang :=
  fun t => exists L, In L Ls /\ L t.

(** [p] finds exactly the prefixes of its input that are in [L]. *)
Definition matches (p : parser) (L : lang) : Prop :=
  forall s t r, In (t, r) (p s) <-> s = t ++ r /\ L t.

Definition lang_d : lang :=
  lang_alt [ lang_cat (lang_cls (Ascii.eqb "3")) (lang_cls (in_range "0" "1"));
             lang_cat (lang_cls (in_range "1" "2")) (lang_cls is_decimal);
             lang_cat (lang_cls (Ascii.eqb "0")) (lang_cls (in_range "1" "9"));
             lang_cls (in_range "1" "9");
             lang_cat (lang_cls (Ascii.eqb " ")) (lang_cls (in_range "1" "9")) ].

Definition lang_m : lang :=
  lang_alt [ lang_cat (lang_cls (Ascii.eqb "1")) (lang_cls (in_range "0" "2"));
             lang_cat (lang_cls (Ascii.eqb "0")) (lang_cls (in_range "1" "9"));
             lang_cls (in_range "1" "9") ].

Definition lang_Y : lang :=
  lang_cat (lang_cls is_decimal) (lang_cat (lang_cls is_decimal)
    (lang_cat (lang_cls is_decimal) (lang_cls is_decimal))).

(** The texts of %d and of %m, written out alternative by alternative:
    [is_decimal] stands for [\d]; every other test is for one of the
    characters '0'..'9' or the blank itself, as the classes [[0-1]],
    [[1-2]], [[0-2]], [[1-9]] and the literals of the pattern are. *)
Definition day_text (t : string) : bool :=
  match t with
  | String a "" => in_range "1" "9" a
  | String a (String b "") =>
      (Ascii.eqb "3" a && in_range "0" "1" b)
      || (in_range "1" "2" a && is_decimal b)
      || (Ascii.eqb "0" a && in_range "1" "9" b)
      || (Ascii.eqb " " a && in_range "1" "9" b)
  | _ => false
  end.

Definition month_text (t : string) : bool :=
  match t with
  | String a "" => in_range "1" "9" a
  | String a (String b "") =>
      (Ascii.eqb "1" a && in_range "0" "2" b)
      || (Ascii.eqb "0" a && in_range "1" "9" b)
  | _ => false
  end.

(** The texts of %Y: exactly four characters that [\d] matches. *)
Definition four_digits (t : string) : bool :=
  match t with
  | String a (String b (String c (String d ""))) =>
      is_decimal a && is_decimal b && is_decimal c && is_decimal d
  | _ => false
  end.

(** A text without a full stop. *)
Definition dotfree (t : string) : bool :=
  all_chars (fun c => negb (Ascii.eqb c ".")) t.

(** The exact pattern DD.MM.YYYY: two digits, a full stop, two digits, a
    full stop, four digits. *)
Definition DD_MM_YYYY (s : string) : bool :=
  match s with
  | String d1 (String d2 (String p1 (String m1 (String m2 (String p2 y))))) =>
      is_decimal d1 && is_decimal d2 && Ascii.eqb p1 "."
      && is_decimal m1 && is_decimal m2 && Ascii.eqb p2 "."
      && four_digits y
  | _ => false
  end.

(** Every birthday stored in the book was accepted by [Birthday]. *)
Definition valid_birthdays (book : AddressBook) : Prop :=
  Forall (fun record =>
            match birthday record with
            | Some b => is_ok (Birthday (value b)) = true
            | None => True
            end) (dict_values book).

(** The stored date of a record when it lies in the seven days from
    [today] on. *)
Definition upcoming (today : date) (record : ContactRecord) : option date :=
  match birthday record with
  | Some b =>
      match strptime (value b) with
      | Ok d =>
          if (0 <=? sub_days d today) && (sub_days d today <? 7)
          then Some d else None
      | Raise _ => None
      end
  | None => None
  end.

(** Saturday is weekday 5 and Sunday weekday 6. *)
Definition is_weekend (d : date) : bool :=
  (weekday d =? 5) || (weekday d =? 6).

(** The bucket a date belongs to. *)
Definition bucket_of (d : date) : string :=
  if is_weekend d then "Next Monday"
  else nth (Z.to_nat (weekday d)) DAY_NAMES "".

Definition in_bucket (today : date) (day : string) (record : ContactRecord)
  : bool :=
  match upcoming today record with
  | Some d => String.eqb (bucket_of d) day
  | None => false
  end.

(* ------------------------------------------------------------------ *)
(** ** [Record.remove_phone] *)

(** [del xs[i]] *)
Fixpoint remove_at {A : Type} (i : nat) (xs : list A) : list A :=
  match xs, i with
  | [], _ => []
  | _ :: rest, O => rest
  | x :: rest, S j => x :: remove_at j rest
  end.

(** The [for] loop of [Record.remove_phone].  The iterator of a list is an
    index [i] into the list as it is at that moment; the loop ends when the
    index is past the end.  The entries are distinct objects (each is made
    by [add_phone]) and [Field] defines no [__eq__], so [phones.remove(p)]
    takes out [p] itself, the entry at the index the loop is at.  Each turn
    moves the index on and the list never grows, so [fuel] turns are enough
    when [fuel] is the length of the list. *)
Fixpoint remove_phone_iter (fuel i : nat) (ps : list Field) (phone : string)
  : list Field :=
  match fuel with
  | O => ps
  | S fuel' =>
      match nth_error ps i with
      | None => ps
      | Some p =>
          if String.eqb (value p) phone
          then remove_phone_iter fuel' (S i) (remove_at i ps) phone
          else remove_phone_iter fuel' (S i) ps phone
      end
  end.

(** [Record.remove_phone] *)
Definition remove_phone (r : ContactRecord) (phone : string)
  : res ContactRecord :=
  Ok (mkRecord (name r)
        (remove_phone_iter (List.length (phones r)) 0 (phones r) phone)
        (birthday r)).

(** What the loop comes to: an entry equal to [phone] is dropped and the
    entry after it is passed over without being looked at. *)
Fixpoint remove_scan (ps : list Field) (phone : string) : list Field :=
  match ps with
  | [] => []
  | p :: rest =>
      if String.eqb (value p) phone then
        match rest with
        | [] => []
        | q :: rest' => q :: remove_scan rest' phone
        end
      else p :: remove_scan rest phone
  end.

(** No two neighbours in the list are both equal to [phone]. *)
Fixpoint no_adjacent (ps : list Field) (phone : string) : bool :=
  match ps with
  | p :: ((q :: _) as rest) =>
      negb (String.eqb (value p) phone && String.eqb (value q) phone)
      && no_adjacent rest phone
  | _ => true
  end.

(* ------------------------------------------------------------------ *)
(** ** [str.split], [str.strip] and [str.lower] *)

Module PyText.

(** One character of [str.isspace]; below U+0100 these are U+0009-U+000D,
    U+001C-U+0020, U+0085 and U+00A0. *)
Definition isspace_char (c : ascii) : bool :=
  ((9 <=? ord c) && (ord c <=? 13))
  || ((28 <=? ord c) && (ord c <=? 32))
  || (ord c =? 133) || (ord c =? 160).

(** [s.split()]: the maximal runs of characters that are not white space;
    [cur] is the run being read. *)
Fixpoint split_from (cur : string) (s : string) : list string :=
  match s with
  | EmptyString => if nonempty cur then [cur] else []
  | String c r =>
      if isspace_char c
      then (if nonempty cur then cur :: split_from "" r else split_from "" r)
      else split_from (cur ++ String c "") r
  end.

Definition split (s : string) : list string := split_from "" s.

Fixpoint lstrip_ws (s : string) : string :=
  match s with
  | String c r => if isspace_char c then lstrip_ws r else s
  | EmptyString => s
  end.

Fixpoint rstrip_ws (s : string) : string :=
  match s with
  | String c r =>
      let r' := rstrip_ws r in
      if isspace_char c && negb (nonempty r') then "" else String c r'
  | EmptyString => s
  end.

(** [s.strip()] *)
Definition strip (s : string) : string := rstrip_ws (lstrip_ws s).

(** One character of [str.lower]; below U+0100 the capital letters are
    A-Z, U+00C0-U+00D6 and U+00D8-U+00DE, each 32 below its small letter. *)
Definition lower_char (c : ascii) : ascii :=
  if ((65 <=? ord c) && (ord c <=? 90))
     || ((192 <=? ord c) && (ord c <=? 214))
     || ((216 <=? ord c) && (ord c <=? 222))
  then ascii_of_N (N_of_ascii c + 32) else c.

Fixpoint lower (s : string) : string :=
  match s with
  | EmptyString => EmptyString
  | String c r => String (lower_char c) (lower r)
  end.

End PyText.
Import PyText.

(* ------------------------------------------------------------------ *)
(** ** [parse_input] and [main] *)

(** The body of [parse_input]; the tuple it returns is held as a list.
    [cmd, *args = []] raises [ValueError]. *)
Definition parse_input_func (user_input : string) : res pyval :=
  match split user_input with
  | [] => Raise ValueError
  | cmd :: args => Ok (VList (lower (strip cmd) :: args))
  end.

Definition parse_input (user_input : string) : M pyval :=
  input_error (lift (parse_input_func user_input)).

(** The characters of a string, as [for c in s] gives them. *)
Definition chars_of (s : string) : list string :=
  map (fun c => String c "") (list_ascii_of_string s).

(** What iterating over a returned value gives. *)
Definition items (v : pyval) : list string :=
  match v with
  | VList l => l
  | VStr s => chars_of s
  end.

(** [command, *args = v] *)
Definition unpack (v : pyval) : res (string * list string) :=
  match items v with
  | [] => Raise ValueError
  | command :: args => Ok (command, args)
  end.

(** Where the loop of [main] stands: reading on, left by [break], or
    stopped by an exception. *)
Inductive status : Type :=
| Running
| Ended
| Crashed (e : exn).

(** [print(handler(...))]: the output is the list of the objects given to
    [print], in order. *)
Definition printed (r : res pyval * AddressBook)
  : list pyval * AddressBook * status :=
  match r with
  | (Ok v, book) => ([v], book, Running)
  | (Raise e, book) => ([], book, Crashed e)
  end.

(** [for x in handler(...): print(x)] *)
Definition printed_each (r : res pyval * AddressBook)
  : list pyval * AddressBook * status :=
  match r with
  | (Ok v, book) => (map VStr (items v), book, Running)
  | (Raise e, book) => ([], book, Crashed e)
  end.

(** The [if]/[elif] chain of [main] on a command word and its arguments. *)
Definition dispatch (today : date) (command : string) (args : list string)
    (book : AddressBook) : list pyval * AddressBook * status :=
  if existsb (String.eqb command) ["close"; "exit"]
  then ([VStr "Good bye!"], book, Ended)
  else if String.eqb command "hello"
  then ([VStr "How can I help you?"], book, Running)
  else if String.eqb command "add"
  then printed (handle_add args book)
  else if String.eqb command "change"
  then printed (handle_change args book)
  else if String.eqb command "phone"
  then printed (handle_phone args book)
  else if String.eqb command "all"
  then printed_each (handle_all book)
  else if String.eqb command "add-birthday"
  then printed (handle_add_birthday args book)
  else if String.eqb command "show-birthday"
  then printed (handle_show_birthday args book)
  else if String.eqb command "birthdays"
  then printed_each (handle_birthdays today book)
  else if String.eqb command "help"
  then ([VStr handle_help], book, Running)
  else ([VStr "Invalid command."], book, Running).

(** One turn of the loop of [main] on the line [user_input], read on the
    day [today]. *)
Definition main_step (today : date) (user_input : string)
    (book : AddressBook) : list pyval * AddressBook * status :=
  match parse_input user_input book with
  | (Raise e, book) => ([], book, Crashed e)
  | (Ok v, book) =>
      match unpack v with
      | Raise e => ([], book, Crashed e)
      | Ok (command, args) => dispatch today command args book
      end
  end.

(** The loop of [main] on the lines that [input] returns, each with the
    day it is read on; with no line left the loop waits. *)
Fixpoint main_loop (inputs : list (date * string)) (book : AddressBook)
  : list pyval * AddressBook * status :=
  match inputs with
  | [] => ([], book, Running)
  | (today, user_input) :: rest =>
      match main_step today user_input book with
      | (out, book', Running) =>
          let '(out', book'', st) := main_loop rest book' in
          ((out ++ out')%list, book'', st)
      | stopped => stopped
      end
  end.

(** [main] *)
Definition main (inputs : list (date * string))
  : list pyval * AddressBook * status :=
  let '(out, book, st) := main_loop inputs empty_book in
  (VStr "Welcome to the assistant bot!" :: out, book, st).

(** The books that the handlers alone build from the empty one. *)
Inductive built : AddressBook -> Prop :=
| built_empty : built empty_book
| built_call (today : date) (h : handler) (args : list string)
    (book : AddressBook) :
    built book -> built (snd (call today h args book)).

(** The handlers that only read the book. *)
Definition read_only (h : handler) : bool :=
  match h with
  | H_add | H_change | H_add_birthday => false
  | H_phone | H_all | H_show_birthday | H_birthdays => true
  end.

(** The names that the weekly query puts under [day]. *)
Definition names_in (today : date) (day : string) (book : AddressBook)
  : list string :=
  map (fun r => value (name r))
      (filter (in_bucket today day) (dict_values book)).

(** The message of [handle_birthdays] for one bucket. *)
Definition bucket_message (day : string) (names : list string)
  : list string :=
  match names with
  | [] => []
  | _ => ["Next " ++ day ++ ": " ++ join ", " names]
  end.

(** Every record of the book has a name that [Name] accepts, is stored
    under that name, has at least one phone and, if it has a birthday, one
    that [Birthday] accepts. *)
Definition record_sound (e : string * ContactRecord) : Prop :=
  value (name (snd e)) = fst e
  /\ is_ok (Name (fst e)) = true
  /\ phones (snd e) <> []
  /\ match birthday (snd e) with
     | Some b => is_ok (Birthday (value b)) = true
     | None => True
     end.

(** A word of a command line: not empty and without white space. *)
Definition token (t : string) : bool :=
  nonempty t && all_chars (fun c => negb (isspace_char c)) t.

(** The line makes [main] leave its loop. *)
Definition is_exit (user_input : string) : bool :=
  match split user_input with
  | cmd :: _ => existsb (String.eqb (lower cmd)) ["close"; "exit"]
  | [] => false
  end.

(** The line calls one of the three handlers that write to the book. *)
Definition is_write (user_input : string) : bool :=
  match split user_input with
  | cmd :: _ => existsb (String.eqb (lower cmd)) ["add"; "change"; "add-birthday"]
  | [] => false
  end.

(* ================================================================== *)
(** * Properties *)

(* ------------------------------------------------------------------ *)
(** ** Characters *)

Lemma ord_inj (a b : ascii) : ord a = ord b -> a = b.
Proof.
  unfold ord. intros H. apply N2Z.inj in H.
  rewrite <- (ascii_N_embedding a), <- (ascii_N_embedding b).
  now rewrite H.
Qed.

Lemma ascii_eqb_ord (a b : ascii) :
  Ascii.eqb a b = (ord a =? ord b).
Proof.
  destruct (Ascii.eqb_spec a b) as [->|Hne].
  - symmetry. apply Z.eqb_refl.
  - symmetry. apply Z.eqb_neq. intros H. apply Hne. now apply ord_inj.
Qed.

Lemma is_decimal_isdigit_char (c : ascii) :
  is_decimal c = true -> isdigit_char c = true.
Proof. unfold isdigit_char. now intros ->. Qed.

Lemma all_chars_impl (p q : ascii -> bool) (s : string) :
  (forall c, p c = true -> q c = true) ->
  all_chars p s = true -> all_chars q s = true.
Proof.
  intros Hpq. induction s as [|c s IH]; simpl; auto.
  intros H. apply andb_true_iff in H as [Hc Hs].
  now rewrite (Hpq c Hc), IH.
Qed.

Lemma len_eqb_10 (s : string) :
  (len s =? 10) = Nat.eqb (String.length s) 10.
Proof.
  unfold len. destruct (Nat.eqb_spec (String.length s) 10) as [->|Hne].
  - reflexivity.
  - apply Z.eqb_neq. lia.
Qed.

(* ------------------------------------------------------------------ *)
(** ** Phone *)

Lemma Phone_eq (s : string) :
  Phone s =
  if Nat.eqb (String.length s) 10 && all_chars isdigit_char s
  then Ok (mkField s) else Raise ValueError.
Proof.
  unfold Phone, isdigit. rewrite len_eqb_10.
  destruct s as [|c s]; [reflexivity|].
  cbn [nonempty andb].
  destruct (all_chars isdigit_char (String c s));
    destruct (Nat.eqb (String.length (String c s)) 10); reflexivity.
Qed.

(** C5, as stated, fails: ten SUPERSCRIPT TWO characters contain no decimal
    digit, yet [Phone] accepts them, because [str.isdigit] does. *)
Lemma C5_counterexample :
  Phone ten_superscripts = Ok (mkField ten_superscripts)
  /\ String.length ten_superscripts = 10%nat
  /\ all_chars is_decimal ten_superscripts = false.
Proof. repeat split. Qed.

(** C5, amended: [Phone s] succeeds exactly when [s] has length 10 and
    every character satisfies [str.isdigit] (the decimal digits, and also
    digit characters that are not decimal such as the superscripts);
    otherwise it raises [ValueError]; a constructed phone renders exactly
    [s]; in particular ten decimal digits are always accepted. *)
Theorem C5_Phone_isdigit_length_10 (s : string) :
  (is_ok (Phone s) = true <->
     String.length s = 10%nat /\ all_chars isdigit_char s = true)
  /\ (is_ok (Phone s) = false <-> Phone s = Raise ValueError)
  /\ (forall f, Phone s = Ok f -> Field_str f = s)
  /\ (String.length s = 10%nat /\ all_chars is_decimal s = true ->
      Phone s = Ok (mkField s)).
Proof.
  rewrite Phone_eq.
  destruct (Nat.eqb_spec (String.length s) 10) as [Hl|Hl];
    destruct (all_chars isdigit_char s) eqn:Hd; cbn [andb is_ok];
    repeat split; try tauto; try discriminate; try congruence.
  all: try (intros f [= <-]; reflexivity).
  all: intros [_ Hdec];
    apply (all_chars_impl _ _ _ is_decimal_isdigit_char) in Hdec; congruence.
Qed.

(* ------------------------------------------------------------------ *)
(** ** Dictionaries *)

Section DictFacts.

Context {V : Type}.
Implicit Types (d : dict V) (k : string) (v : V).

Lemma dict_get_set_same k v d : dict_get k (dict_set k v d) = Some v.
Proof.
  induction d as [|[k' v'] d IH]; simpl.
  - now rewrite String.eqb_refl.
  - destruct (String.eqb k' k) eqn:E; simpl; now rewrite E.
Qed.

Lemma dict_get_set_other k k' v d :
  k' <> k -> dict_get k' (dict_set k v d) = dict_get k' d.
Proof.
  intros Hne. induction d as [|[k0 v0] d IH]; simpl.
  - destruct (String.eqb_spec k k'); congruence.
  - destruct (String.eqb_spec k0 k) as [->|Hk]; simpl.
    + destruct (String.eqb_spec k k'); congruence.
    + now rewrite IH.
Qed.

Lemma dict_get_In k v d : dict_get k d = Some v -> In (k, v) d.
Proof.
  induction d as [|[k0 v0] d IH]; simpl; [discriminate|].
  destruct (String.eqb_spec k0 k) as [->|Hk].
  - intros [= ->]. now left.
  - intros H. right. now apply IH.
Qed.

Lemma dict_get_None_keys k d : dict_get k d = None <-> ~ In k (dict_keys d).
Proof.
  induction d as [|[k0 v0] d IH]; simpl; [tauto|].
  destruct (String.eqb_spec k0 k) as [->|Hk].
  - split; [discriminate | intros H; exfalso; apply H; now left].
  - rewrite IH. tauto.
Qed.

Lemma dict_keys_set_present k v d :
  In k (dict_keys d) -> dict_keys (dict_set k v d) = dict_keys d.
Proof.
  induction d as [|[k0 v0] d IH]; simpl; [tauto|].
  destruct (String.eqb_spec k0 k) as [->|Hk]; simpl; [reflexivity|].
  intros [?|Hin]; [congruence|]. now rewrite IH.
Qed.

Lemma dict_keys_set_absent k v d :
  ~ In k (dict_keys d) -> dict_keys (dict_set k v d) = (dict_keys d ++ [k])%list.
Proof.
  induction d as [|[k0 v0] d IH]; simpl; [reflexivity|].
  destruct (String.eqb_spec k0 k) as [->|Hk]; simpl; [tauto|].
  intros Hn. rewrite IH; tauto.
Qed.

Lemma dict_set_wf k v d : dict_wf d -> dict_wf (dict_set k v d).
Proof.
  unfold dict_wf. intros Hwf.
  destruct (in_dec string_dec k (dict_keys d)) as [Hin|Hn].
  - now rewrite dict_keys_set_present.
  - rewrite dict_keys_set_absent by assumption.
    apply NoDup_app; [assumption | repeat constructor; simpl; tauto |].
    intros x Hx [<-|[]]. tauto.
Qed.

Lemma dict_set_Forall (P : string * V -> Prop) k v d :
  P (k, v) -> Forall P d -> Forall P (dict_set k v d).
Proof.
  intros Hkv. induction 1 as [|[k0 v0] d Hx Hd IH]; simpl.
  - repeat constructor. assumption.
  - destruct (String.eqb_spec k0 k) as [->|Hk]; constructor; assumption.
Qed.

Lemma dict_del_Forall (P : string * V -> Prop) k d :
  Forall P d -> Forall P (dict_del k d).
Proof.
  induction 1 as [|[k0 v0] d Hx Hd IH]; simpl; [constructor|].
  destruct (String.eqb k0 k); [assumption | now constructor].
Qed.

Lemma dict_set_values_Forall (P : V -> Prop) k v d :
  P v -> Forall P (dict_values d) -> Forall P (dict_values (dict_set k v d)).
Proof.
  intros Hv. induction d as [|[k0 v0] d IH]; simpl; intros H.
  - repeat constructor. assumption.
  - inversion H as [|? ? H0 Hd]; subst.
    destruct (String.eqb k0 k); simpl; constructor; auto.
Qed.

Lemma dict_get_In_values k v d : dict_get k d = Some v -> In v (dict_values d).
Proof.
  intros H. apply dict_get_In in H. apply in_map_iff. now exists (k, v).
Qed.

(** Assigning to a key leaves the entries under the other keys as they
    were, in the same order. *)
Lemma dict_set_others k v d :
  filter (fun e => negb (String.eqb (fst e) k)) (dict_set k v d)
  = filter (fun e => negb (String.eqb (fst e) k)) d.
Proof.
  induction d as [|[k0 v0] d IH]; simpl.
  - now rewrite String.eqb_refl.
  - destruct (String.eqb k0 k) eqn:E; simpl; rewrite E; simpl;
      [reflexivity | now rewrite IH].
Qed.

End DictFacts.

(* ------------------------------------------------------------------ *)
(** ** Records and the book *)

Lemma edit_phone_loop_map (ps : list Field) (old_phone new_phone : string) :
  edit_phone_loop ps old_phone new_phone
  = map (fun p => if String.eqb (value p) old_phone
                  then mkField new_phone else p) ps.
Proof. induction ps as [|p ps IH]; simpl; [reflexivity | now rewrite IH]. Qed.

Lemma edit_phone_loop_absent (ps : list Field) (old_phone new_phone : string) :
  (forall p, In p ps -> value p <> old_phone) ->
  edit_phone_loop ps old_phone new_phone = ps.
Proof.
  induction ps as [|p ps IH]; simpl; [reflexivity|].
  intros H. rewrite IH by (intros q Hq; apply H; now right).
  destruct (String.eqb_spec (value p) old_phone) as [E|E]; [|reflexivity].
  exfalso. apply (H p); [now left | assumption].
Qed.

(** C6: after [add_record(r1)] and [add_record(r2)] with equal names, the
    book has exactly one entry under that name, it is [r2], and the
    entries under every other name are as before. *)
Theorem C6_add_record_overwrites (book : AddressBook) (r1 r2 : ContactRecord) :
  dict_wf book ->
  value (name r1) = value (name r2) ->
  let n := value (name r2) in
  let book' := add_record r2 (add_record r1 book) in
  find n book' = Some r2
  /\ count_occ string_dec (dict_keys book') n = 1%nat
  /\ dict_wf book'
  /\ (forall k, k <> n -> find k book' = find k book)
  /\ filter (fun e => negb (String.eqb (fst e) n)) book'
     = filter (fun e => negb (String.eqb (fst e) n)) book.
Proof.
  intros Hwf Hn n book'. subst n book'. unfold add_record, find.
  rewrite Hn.
  assert (Hwf' : dict_wf (dict_set (value (name r2)) r2
                            (dict_set (value (name r2)) r1 book)))
    by now do 2 apply dict_set_wf.
  repeat split.
  - apply dict_get_set_same.
  - apply NoDup_count_occ'; [exact Hwf'|].
    destruct (in_dec string_dec (value (name r2))
                (dict_keys (dict_set (value (name r2)) r2
                   (dict_set (value (name r2)) r1 book)))) as [Hin|Hnin];
      [assumption|].
    apply dict_get_None_keys in Hnin. rewrite dict_get_set_same in Hnin.
    discriminate.
  - exact Hwf'.
  - intros k Hk. now rewrite !dict_get_set_other.
  - now rewrite !dict_set_others.
Qed.

Lemma C6_witness :
  let book := add_record (record_of "Ann" ["1111111111"]) empty_book in
  let r1 := record_of "Bob" ["2222222222"] in
  let r2 := record_of "Bob" ["3333333333"] in
  find "Bob" (add_record r2 (add_record r1 book)) = Some r2
  /\ count_occ string_dec
       (dict_keys (add_record r2 (add_record r1 book))) "Bob" = 1%nat.
Proof.
  intros book r1 r2.
  assert (Hwf : dict_wf book).
  { unfold dict_wf. simpl. repeat constructor; simpl; tauto. }
  pose proof (C6_add_record_overwrites book r1 r2 Hwf eq_refl) as H.
  simpl in H. destruct H as (Hf & Hc & _). split; assumption.
Defined.

(** C7: when no stored phone equals [old], [edit_phone(old, new)] raises
    nothing and returns the record as it was, whatever [new] is. *)
Theorem C7_edit_phone_absent_is_noop
    (r : ContactRecord) (old_phone new_phone : string) :
  (forall p, In p (phones r) -> value p <> old_phone) ->
  edit_phone r old_phone new_phone = Ok r.
Proof.
  intros H. unfold edit_phone. rewrite edit_phone_loop_absent by assumption.
  now destruct r.
Qed.

Lemma C7_witness :
  edit_phone (record_of "Bob" ["1234567890"; "5555555555"])
             "0000000000" "not a phone"
  = Ok (record_of "Bob" ["1234567890"; "5555555555"]).
Proof.
  apply C7_edit_phone_absent_is_noop.
  simpl. intros p [<-|[<-|[]]]; discriminate.
Defined.

(** C8: on the empty book [handle_add(["Bob","1234567890"])] answers
    "Contact added." and then [find("Bob")] gives a record with the one
    phone "1234567890"; [find] of a name that is not in the book gives
    [None] and cannot raise. *)
Theorem C8_handle_add_then_find :
  (exists book' record,
      handle_add ["Bob"; "1234567890"] empty_book
        = (Ok (VStr "Contact added."), book')
      /\ find "Bob" book' = Some record
      /\ map Field_str (phones record) = ["1234567890"])
  /\ (forall n, find n empty_book = None)
  /\ (forall n book, dict_contains n book = false -> find n book = None).
Proof.
  split; [|split].
  - eexists. eexists. repeat split.
  - reflexivity.
  - intros n book. unfold dict_contains, find.
    now destruct (dict_get n book).
Qed.

(** C9: for a book holding a record under [n], [handle_phone([n])] answers
    the value of the first phone only, and the fixed "Invalid input"
    message when the record has no phone; the book is not changed. *)
Theorem C9_handle_phone_first_phone
    (book : AddressBook) (n : string) (record : ContactRecord) :
  find n book = Some record ->
  handle_phone [n] book
  = (Ok (VStr match phones record with
              | first :: _ => value first
              | [] => "Invalid input. Please provide the required information."
              end), book).
Proof.
  intros Hf. unfold handle_phone, input_error, handle_phone_func, bind,
    get_book, lift, ret.
  rewrite Hf. now destruct (phones record).
Qed.

Lemma C9_witness :
  let book := add_record (record_of "Bob" ["1234567890"; "5555555555"])
                (add_record (record_of "Eve" []) empty_book) in
  handle_phone ["Bob"] book = (Ok (VStr "1234567890"), book)
  /\ handle_phone ["Eve"] book
     = (Ok (VStr "Invalid input. Please provide the required information."),
        book).
Proof.
  intros book. split.
  - exact (C9_handle_phone_first_phone book "Bob" _ eq_refl).
  - exact (C9_handle_phone_first_phone book "Eve" _ eq_refl).
Defined.

(** C2, as stated, fails: with two entries equal to [old] the code
    replaces both, where the description replaces only the first. *)
Lemma C2_counterexample :
  let r := record_of "Bob" ["1111111111"; "1111111111"] in
  In "1111111111" (map value (phones r))
  /\ edit_phone r "1111111111" "2222222222"
     = Ok (record_of "Bob" ["2222222222"; "2222222222"])
  /\ edit_phone_described r "1111111111" "2222222222"
     = Ok (record_of "Bob" ["2222222222"; "1111111111"])
  /\ edit_phone r "1111111111" "2222222222"
     <> edit_phone_described r "1111111111" "2222222222".
Proof. simpl. repeat split; [now left | discriminate]. Qed.

(** [edit_phone] builds no [Phone]: a text that [Phone] rejects is stored
    as it is, without an exception. *)
Example edit_phone_stores_invalid_text :
  Phone "abc" = Raise ValueError
  /\ edit_phone (record_of "Bob" ["1234567890"]) "1234567890" "abc"
     = Ok (record_of "Bob" ["abc"]).
Proof. split; reflexivity. Qed.

(** C2, amended: when some stored phone equals [old] and [new] is a valid
    phone text, [edit_phone(old, new)] raises nothing and gives every entry
    equal to [old] (the first one and all later duplicates) the value
    [new]; the other entries, their order and number, the name and the
    birthday stay as they were.  (For a text that [Phone] rejects see
    [edit_phone_stores_invalid_text].) *)
Theorem C2_edit_phone_replaces_every_match
    (r : ContactRecord) (old_phone new_phone : string) :
  In old_phone (map value (phones r)) ->
  is_ok (Phone new_phone) = true ->
  exists r',
    edit_phone r old_phone new_phone = Ok r'
    /\ name r' = name r
    /\ birthday r' = birthday r
    /\ phones r'
       = map (fun p => if String.eqb (value p) old_phone
                       then mkField new_phone else p) (phones r)
    /\ List.length (phones r') = List.length (phones r)
    /\ In new_phone (map value (phones r'))
    /\ (forall i p, nth_error (phones r) i = Some p ->
          value p <> old_phone -> nth_error (phones r') i = Some p)
    /\ (forall i p, nth_error (phones r) i = Some p ->
          value p = old_phone ->
          nth_error (phones r') i = Some (mkField new_phone)).
Proof.
  intros Hin _. eexists. split; [reflexivity|]. cbn [name birthday phones].
  rewrite edit_phone_loop_map.
  set (f := fun p => if String.eqb (value p) old_phone
                     then mkField new_phone else p).
  repeat split.
  - apply length_map.
  - apply in_map_iff in Hin as (p & Hp & Hin).
    rewrite map_map. apply in_map_iff. exists p. split; [|assumption].
    unfold f. rewrite <- Hp, String.eqb_refl. reflexivity.
  - intros i p Hi Hne. rewrite nth_error_map, Hi. simpl. unfold f.
    destruct (String.eqb_spec (value p) old_phone); congruence.
  - intros i p Hi He. rewrite nth_error_map, Hi. simpl. unfold f.
    now rewrite He, String.eqb_refl.
Qed.

Lemma C2_witness :
  exists r',
    edit_phone (record_of "Bob" ["1111111111"; "5555555555"; "1111111111"])
               "1111111111" "2222222222" = Ok r'
    /\ map value (phones r') = ["2222222222"; "5555555555"; "2222222222"].
Proof.
  destruct (C2_edit_phone_replaces_every_match
              (record_of "Bob" ["1111111111"; "5555555555"; "1111111111"])
              "1111111111" "2222222222")
    as (r' & He & _ & _ & Hp & _).
  - simpl. now left.
  - reflexivity.
  - exists r'. split; [exact He|]. rewrite Hp. reflexivity.
Defined.

(* ------------------------------------------------------------------ *)
(** ** The invariant of the book *)

Lemma keyed_find (book : AddressBook) (k : string) (r : ContactRecord) :
  keyed_by_name book -> find k book = Some r -> value (name r) = k.
Proof.
  unfold keyed_by_name, find. intros Hk Hf. apply dict_get_In in Hf.
  rewrite Forall_forall in Hk. exact (Hk _ Hf).
Qed.

Lemma keyed_add_record (book : AddressBook) (r : ContactRecord) :
  keyed_by_name book -> keyed_by_name (add_record r book).
Proof. intros H. apply dict_set_Forall; [reflexivity | exact H]. Qed.

Lemma keyed_store (book : AddressBook) (k : string) (r : ContactRecord) :
  value (name r) = k -> keyed_by_name book -> keyed_by_name (dict_set k r book).
Proof. intros Hn H. apply dict_set_Forall; [exact Hn | exact H]. Qed.

Lemma keyed_delete (book : AddressBook) (n : string) :
  keyed_by_name book -> keyed_by_name (delete n book).
Proof.
  intros H. unfold delete. destruct (dict_contains n book); [|exact H].
  now apply dict_del_Forall.
Qed.

Lemma input_error_snd (func : M pyval) (book : AddressBook) :
  snd (input_error func book) = snd (func book).
Proof.
  unfold input_error. destruct (func book) as [[v|[]] book']; reflexivity.
Qed.

Lemma keyed_call (today : PyDate.date) (h : handler) (args : list string)
    (book : AddressBook) :
  keyed_by_name book -> keyed_by_name (snd (call today h args book)).
Proof.
  intros Hk.
  destruct h; cbn [call];
    unfold handle_add, handle_change, handle_phone, handle_all,
      handle_add_birthday, handle_show_birthday, handle_birthdays;
    rewrite input_error_snd.
  - (* add *)
    unfold handle_add_func.
    destruct args as [|n [|phone [|? ?]]]; try exact Hk.
    unfold bind, lift, modify_book, ret, Record_init, add_phone, rbind.
    destruct (Name n); [|exact Hk].
    destruct (Phone phone); [|exact Hk].
    cbn. now apply keyed_add_record.
  - (* change *)
    unfold handle_change_func.
    destruct args as [|n [|new_phone [|? ?]]]; try exact Hk.
    unfold bind, get_book, lift, store, modify_book, ret.
    destruct (find n book) as [record|] eqn:Hf; [|exact Hk].
    destruct (getitem (phones record) 0); [|exact Hk].
    cbn. apply keyed_store; [|exact Hk].
    cbn. now apply (keyed_find book).
  - (* phone *)
    unfold handle_phone_func.
    destruct args as [|n [|? ?]]; try exact Hk.
    unfold bind, get_book, lift, ret.
    destruct (find n book) as [record|]; [|exact Hk].
    destruct (getitem (phones record) 0); exact Hk.
  - (* all *)
    exact Hk.
  - (* add-birthday *)
    unfold handle_add_birthday_func.
    destruct args as [|n [|b [|? ?]]]; try exact Hk.
    unfold bind, get_book, lift, store, modify_book, ret.
    destruct (find n book) as [record|] eqn:Hf; [|exact Hk].
    unfold add_birthday, rbind.
    destruct (Birthday b); [|exact Hk].
    cbn. apply keyed_store; [|exact Hk].
    cbn. now apply (keyed_find book).
  - (* show-birthday *)
    unfold handle_show_birthday_func.
    destruct args as [|n [|? ?]]; try exact Hk.
    unfold bind, get_book, ret.
    destruct (find n book) as [[? ? [b|]]|]; exact Hk.
  - (* birthdays *)
    unfold handle_birthdays_func, bind, get_book, lift, ret.
    destruct (get_birthdays_per_week today book); exact Hk.
Qed.

(** C10: in every book reachable from the empty one by [add_record],
    [delete] and the handlers, each key is the name of the record stored
    under it. *)
Theorem C10_records_keyed_by_own_name (book : AddressBook) :
  reachable book ->
  forall k record, find k book = Some record -> value (name record) = k.
Proof.
  intros Hr. assert (Hk : keyed_by_name book).
  { induction Hr.
    - constructor.
    - now apply keyed_add_record.
    - now apply keyed_delete.
    - now apply keyed_call. }
  intros k record. now apply keyed_find.
Qed.

Lemma C10_witness :
  let book :=
    snd (call 739048 H_change ["Bob"; "5555555555"]
      (delete "Ann"
        (snd (call 739048 H_add ["Bob"; "1234567890"]
          (add_record (record_of "Ann" []) empty_book))))) in
  find "Bob" book = Some (record_of "Bob" ["5555555555"])
  /\ value (name (record_of "Bob" ["5555555555"])) = "Bob".
Proof.
  intros book. split; [reflexivity|].
  apply (C10_records_keyed_by_own_name book).
  - unfold book. repeat constructor.
  - reflexivity.
Defined.

(* ------------------------------------------------------------------ *)
(** ** Matching the pattern of ['%d.%m.%Y'] *)

Lemma append_assoc (a b c : string) : (a ++ b) ++ c = a ++ (b ++ c).
Proof. induction a as [|x a IH]; simpl; [reflexivity | now rewrite IH]. Qed.

Lemma matches_cls p : matches (cls p) (lang_cls p).
Proof.
  intros s t r. unfold cls, lang_cls. destruct s as [|a s]; simpl.
  - split; [tauto|]. intros (H & a & -> & _). discriminate.
  - destruct (p a) eqn:E; simpl.
    + split.
      * intros [[= <- <-]|[]]. split; [reflexivity|]. now exists a.
      * intros (H & a' & -> & _). injection H as <- <-. now left.
    + split; [tauto|]. intros (H & a' & -> & Ha). injection H as <- <-.
      congruence.
Qed.

Lemma matches_cat p q L1 L2 :
  matches p L1 -> matches q L2 -> matches (cat p q) (lang_cat L1 L2).
Proof.
  intros Hp Hq s t r. unfold cat, lang_cat. rewrite in_flat_map. split.
  - intros ([t1 r1] & H1 & H2). apply in_map_iff in H2 as ([t2 r2] & [= <- <-] & H2).
    apply Hp in H1 as [-> H1]. apply Hq in H2 as [-> H2].
    split; [now rewrite append_assoc|]. now exists t1, t2.
  - intros (-> & t1 & t2 & -> & H1 & H2).
    exists (t1, t2 ++ r). split.
    + apply Hp. split; [apply append_assoc | assumption].
    + apply in_map_iff. exists (t2, r). split; [reflexivity|].
      apply Hq. now split.
Qed.

Lemma matches_alt ps Ls :
  Forall2 matches ps Ls -> matches (alt ps) (lang_alt Ls).
Proof.
  intros H s t r. unfold alt, lang_alt. rewrite in_flat_map. split.
  - intros (p & Hin & Hp). induction H as [|p0 L0 ps Ls H0 H IH]; [destruct Hin|].
    destruct Hin as [->|Hin].
    + apply H0 in Hp as [-> Hp]. split; [reflexivity|]. exists L0. split; [now left | assumption].
    + destruct (IH Hin) as (-> & L & HL & Ht). split; [reflexivity|].
      exists L. split; [now right | assumption].
  - intros (-> & L & HL & Ht). induction H as [|p0 L0 ps Ls H0 H IH]; [destruct HL|].
    destruct HL as [->|HL].
    + exists p0. split; [now left|]. apply H0. now split.
    + destruct (IH HL) as (p & Hin & Hp). exists p. split; [now right | assumption].
Qed.

Lemma matches_chr c : matches (chr c) (lang_cls (Ascii.eqb c)).
Proof. apply matches_cls. Qed.

Ltac matches_tac :=
  repeat first [ apply matches_chr | apply matches_cls | apply matches_cat
               | apply matches_alt | constructor ].

Lemma matches_re_d : matches re_d lang_d.
Proof. unfold re_d, lang_d. matches_tac. Qed.

Lemma matches_re_m : matches re_m lang_m.
Proof. unfold re_m, lang_m. matches_tac. Qed.

Lemma matches_re_Y : matches re_Y lang_Y.
Proof. unfold re_Y, lang_Y. matches_tac. Qed.

Lemma format_regex_spec (s d m y rest : string) :
  In ((d, m, y), rest) (format_regex s) <->
  s = d ++ "." ++ m ++ "." ++ y ++ rest /\ lang_d d /\ lang_m m /\ lang_Y y.
Proof.
  unfold format_regex. split.
  - intros H.
    apply in_flat_map in H as ([d' r1] & H1 & H).
    apply in_flat_map in H as ([x1 r2] & H2 & H).
    apply in_flat_map in H as ([m' r3] & H3 & H).
    apply in_flat_map in H as ([x2 r4] & H4 & H).
    apply in_map_iff in H as ([y' r5] & [= <- <- <- <-] & H5).
    apply matches_re_d in H1 as [-> Hd].
    apply matches_chr in H2 as [-> (a & -> & Ha)].
    apply matches_re_m in H3 as [-> Hm].
    apply matches_chr in H4 as [-> (b & -> & Hb)].
    apply matches_re_Y in H5 as [-> Hy].
    apply Ascii.eqb_eq in Ha as <-. apply Ascii.eqb_eq in Hb as <-.
    repeat split; assumption.
  - intros (-> & Hd & Hm & Hy).
    apply in_flat_map. exists (d, "." ++ m ++ "." ++ y ++ rest).
    split; [apply matches_re_d; now split|].
    apply in_flat_map. exists (".", m ++ "." ++ y ++ rest).
    split; [apply matches_chr; split; [reflexivity | now exists "."%char]|].
    apply in_flat_map. exists (m, "." ++ y ++ rest).
    split; [apply matches_re_m; now split|].
    apply in_flat_map. exists (".", y ++ rest).
    split; [apply matches_chr; split; [reflexivity | now exists "."%char]|].
    apply in_map_iff. exists (y, rest).
    split; [reflexivity | apply matches_re_Y; now split].
Qed.

Ltac ord_consts :=
  repeat match goal with
  | |- context [ord (Ascii ?a ?b ?c ?d ?e ?f ?g ?h)] =>
      let v := eval vm_compute in (ord (Ascii a b c d e f g h)) in
      change (ord (Ascii a b c d e f g h)) with v
  | H : context [ord (Ascii ?a ?b ?c ?d ?e ?f ?g ?h)] |- _ =>
      let v := eval vm_compute in (ord (Ascii a b c d e f g h)) in
      change (ord (Ascii a b c d e f g h)) with v in H
  end.

(** Character tests, in the hypotheses and the goal, as integer facts. *)
Ltac chars :=
  unfold is_decimal, in_range in *;
  rewrite ?ascii_eqb_ord in *;
  ord_consts;
  repeat (progress
    (rewrite ?andb_true_iff, ?orb_true_iff, ?andb_false_iff, ?orb_false_iff,
       ?negb_true_iff, ?negb_false_iff, ?Z.leb_le, ?Z.leb_gt, ?Z.eqb_eq,
       ?Z.eqb_neq in *));
  try lia.

Ltac two_chars a b :=
  cbv beta; exists (String a ""), (String b "");
  split; [reflexivity|]; split; eexists; (split; [reflexivity | assumption]).

Lemma lang_d_text t : lang_d t <-> day_text t = true.
Proof.
  unfold lang_d, lang_alt, lang_cat, lang_cls. split.
  - intros (L & HL & Ht). cbn [In] in HL.
    destruct HL as [<-|[<-|[<-|[<-|[<-|[]]]]]];
      repeat match goal with
      | H : exists _, _ |- _ => destruct H
      | H : _ /\ _ |- _ => destruct H
      end; subst; cbn [append day_text month_text]; chars.
  - destruct t as [|a [|b [|c t]]]; simpl; try discriminate; intros H.
    + eexists. split; [right; right; right; left; reflexivity|]. cbv beta. eauto.
    + apply orb_true_iff in H as [H|H]; [apply orb_true_iff in H as [H|H];
        [apply orb_true_iff in H as [H|H]|]|];
      apply andb_true_iff in H as [Ha Hb].
      * eexists. split; [left; reflexivity|]. two_chars a b.
      * eexists. split; [right; left; reflexivity|]. two_chars a b.
      * eexists. split; [right; right; left; reflexivity|]. two_chars a b.
      * eexists. split; [right; right; right; right; left; reflexivity|]. two_chars a b.
Qed.

Lemma lang_m_text t : lang_m t <-> month_text t = true.
Proof.
  unfold lang_m, lang_alt, lang_cat, lang_cls. split.
  - intros (L & HL & Ht). cbn [In] in HL.
    destruct HL as [<-|[<-|[<-|[]]]];
      repeat match goal with
      | H : exists _, _ |- _ => destruct H
      | H : _ /\ _ |- _ => destruct H
      end; subst; cbn [append day_text month_text]; chars.
  - destruct t as [|a [|b [|c t]]]; simpl; try discriminate; intros H.
    + eexists. split; [right; right; left; reflexivity|]. cbv beta. eauto.
    + apply orb_true_iff in H as [H|H]; apply andb_true_iff in H as [Ha Hb].
      * eexists. split; [left; reflexivity|]. two_chars a b.
      * eexists. split; [right; left; reflexivity|]. two_chars a b.
Qed.

Lemma lang_Y_text t : lang_Y t <-> four_digits t = true.
Proof.
  unfold lang_Y, lang_cat, lang_cls. split.
  - intros H.
    repeat match goal with
      | H : exists _, _ |- _ => destruct H
      | H : _ /\ _ |- _ => destruct H
      end; subst; cbn [append four_digits].
    repeat match goal with
      | H : is_decimal _ = true |- _ => rewrite H; clear H
      end. reflexivity.
  - destruct t as [|a [|b [|c [|d [|e t]]]]]; simpl; try discriminate.
    intros H. apply andb_true_iff in H as [H Hd].
    apply andb_true_iff in H as [H Hc]. apply andb_true_iff in H as [Ha Hb].
    exists (String a ""), (String b (String c (String d ""))).
    split; [reflexivity|]. split; [eauto|].
    exists (String b ""), (String c (String d "")).
    split; [reflexivity|]. split; [eauto|].
    exists (String c ""), (String d ""). eauto 8.
Qed.

Lemma append_nil_r (s : string) : s ++ "" = s.
Proof. induction s as [|c s IH]; simpl; [reflexivity | now rewrite IH]. Qed.

Lemma day_text_dotfree t : day_text t = true -> dotfree t = true.
Proof.
  destruct t as [|a [|b [|c t]]]; cbn [day_text dotfree all_chars];
    try discriminate; rewrite ?andb_true_r; intros H; chars.
Qed.

Lemma month_text_dotfree t : month_text t = true -> dotfree t = true.
Proof.
  destruct t as [|a [|b [|c t]]]; cbn [month_text dotfree all_chars];
    try discriminate; rewrite ?andb_true_r; intros H; chars.
Qed.

Lemma split_at_dot (t t' r r' : string) :
  dotfree t = true -> dotfree t' = true ->
  t ++ String "." r = t' ++ String "." r' -> t = t' /\ r = r'.
Proof.
  revert t'. induction t as [|c t IH]; intros [|c' t']; simpl.
  - intros _ _ [= ->]. now split.
  - intros _ H [= <- _]. discriminate.
  - intros H _ [= -> _]. discriminate.
  - intros H H' [= <- E].
    apply andb_true_iff in H as [_ H]. apply andb_true_iff in H' as [_ H'].
    destruct (IH t' H H' E) as [-> ->]. now split.
Qed.

Lemma four_digits_split (y y' r r' : string) :
  four_digits y = true -> four_digits y' = true ->
  y ++ r = y' ++ r' -> y = y' /\ r = r'.
Proof.
  destruct y as [|a [|b [|c [|d [|e y]]]]]; try discriminate.
  destruct y' as [|a' [|b' [|c' [|d' [|e' y']]]]]; try discriminate.
  intros _ _ [= -> -> -> -> ->]. now split.
Qed.

Lemma format_regex_unique (s : string) x x' :
  In x (format_regex s) -> In x' (format_regex s) -> x = x'.
Proof.
  destruct x as [[[d m] y] r], x' as [[[d' m'] y'] r'].
  intros H H'.
  apply format_regex_spec in H as (-> & Hd & Hm & Hy).
  apply format_regex_spec in H' as (E & Hd' & Hm' & Hy').
  apply lang_d_text, day_text_dotfree in Hd, Hd'.
  apply lang_m_text, month_text_dotfree in Hm, Hm'.
  apply lang_Y_text in Hy, Hy'.
  apply split_at_dot in E as [<- E]; try assumption.
  apply split_at_dot in E as [<- E]; try assumption.
  apply four_digits_split in E as [<- <-]; try assumption.
  reflexivity.
Qed.

Lemma format_regex_head (s d m y rest : string) :
  In ((d, m, y), rest) (format_regex s) ->
  exists l, format_regex s = ((d, m, y), rest) :: l.
Proof.
  intros H. destruct (format_regex s) as [|x l] eqn:E; [destruct H|].
  exists l. f_equal. apply (format_regex_unique s); rewrite E; [now left | exact H].
Qed.

(** [strptime] succeeds exactly on the texts day.month.year whose parts
    are in the languages of %d, %m and %Y and form a date. *)
Lemma strptime_spec (s : string) (dt : date) :
  strptime s = Ok dt <->
  exists d m y Y Mo D,
    s = d ++ "." ++ m ++ "." ++ y
    /\ day_text d = true /\ month_text m = true /\ four_digits y = true
    /\ int y = Ok Y /\ int m = Ok Mo /\ int d = Ok D
    /\ mkdate Y Mo D = Ok dt.
Proof.
  unfold strptime. split.
  - destruct (format_regex s) as [|[[[d m] y] rest] l] eqn:E; [discriminate|].
    assert (Hin : In ((d, m, y), rest) (format_regex s)) by (rewrite E; now left).
    apply format_regex_spec in Hin as (-> & Hd & Hm & Hy).
    destruct rest; [|discriminate]. cbn [nonempty].
    destruct (int y) as [Y|] eqn:EY; [|discriminate].
    destruct (int m) as [Mo|] eqn:EM; [|discriminate].
    destruct (int d) as [D|] eqn:ED; [|discriminate].
    cbn [rbind]. intros Hdt. exists d, m, y, Y, Mo, D.
    rewrite append_nil_r.
    repeat split; try assumption;
      [now apply lang_d_text | now apply lang_m_text | now apply lang_Y_text].
  - intros (d & m & y & Y & Mo & D & -> & Hd & Hm & Hy & EY & EM & ED & Hdt).
    destruct (format_regex_head (d ++ "." ++ m ++ "." ++ y) d m y "") as [l ->].
    + apply format_regex_spec. rewrite append_nil_r.
      repeat split;
        [now apply lang_d_text | now apply lang_m_text | now apply lang_Y_text].
    + cbn [nonempty]. rewrite EY, EM, ED. exact Hdt.
Qed.

Lemma decimal_not_blank a : is_decimal a = true -> Ascii.eqb a " " = false.
Proof. intros H. chars. Qed.

Lemma int_one a : is_decimal a = true -> int (String a "") = Ok (ord a - 48).
Proof.
  intros H. unfold int. cbn [lstrip]. rewrite (decimal_not_blank a H).
  cbn [nonempty digits_value]. rewrite H. f_equal; lia.
Qed.

Lemma int_two a b :
  is_decimal a = true -> is_decimal b = true ->
  int (String a (String b "")) = Ok (10 * (ord a - 48) + (ord b - 48)).
Proof.
  intros Ha Hb. unfold int. cbn [lstrip]. rewrite (decimal_not_blank a Ha).
  cbn [nonempty digits_value]. rewrite Ha, Hb. f_equal; lia.
Qed.

Lemma int_blank b :
  is_decimal b = true -> int (String " " (String b "")) = Ok (ord b - 48).
Proof.
  intros Hb. unfold int. cbn [lstrip]. rewrite Ascii.eqb_refl.
  rewrite (decimal_not_blank b Hb).
  cbn [nonempty digits_value]. rewrite Hb. f_equal; lia.
Qed.

Lemma int_four a b c d :
  is_decimal a = true -> is_decimal b = true ->
  is_decimal c = true -> is_decimal d = true ->
  int (String a (String b (String c (String d ""))))
  = Ok (1000 * (ord a - 48) + 100 * (ord b - 48) + 10 * (ord c - 48)
        + (ord d - 48)).
Proof.
  intros Ha Hb Hc Hd. unfold int. cbn [lstrip].
  rewrite (decimal_not_blank a Ha).
  cbn [nonempty digits_value]. rewrite Ha, Hb, Hc, Hd. f_equal; lia.
Qed.

(** The text of a day or of a month is the numeral of a number that
    [int] reads: a day from 1 to 31, a month from 1 to 12. *)
Lemma day_text_value d :
  day_text d = true -> exists D, int d = Ok D /\ 1 <= D <= 31.
Proof.
  destruct d as [|a [|b [|c t]]]; cbn [day_text]; try discriminate;
    intros H.
  - assert (Ha : is_decimal a = true) by chars.
    exists (ord a - 48). split; [apply (int_one a Ha) | chars].
  - apply orb_true_iff in H as [H|H].
    + assert (Ha : is_decimal a = true) by chars.
      assert (Hb : is_decimal b = true) by chars.
      exists (10 * (ord a - 48) + (ord b - 48)).
      split; [apply (int_two a b Ha Hb) | chars].
    + apply andb_true_iff in H as [Ha Hb].
      assert (Hb' : is_decimal b = true) by chars.
      apply Ascii.eqb_eq in Ha as <-.
      exists (ord b - 48). split; [apply (int_blank b Hb') | chars].
Qed.

Lemma month_text_value m :
  month_text m = true -> exists Mo, int m = Ok Mo /\ 1 <= Mo <= 12.
Proof.
  destruct m as [|a [|b [|c t]]]; cbn [month_text]; try discriminate;
    intros H.
  - assert (Ha : is_decimal a = true) by chars.
    exists (ord a - 48). split; [apply (int_one a Ha) | chars].
  - assert (Ha : is_decimal a = true) by chars.
    assert (Hb : is_decimal b = true) by chars.
    exists (10 * (ord a - 48) + (ord b - 48)).
    split; [apply (int_two a b Ha Hb) | chars].
Qed.

Lemma four_digits_range y Y :
  four_digits y = true -> int y = Ok Y -> 0 <= Y <= 9999.
Proof.
  destruct y as [|a [|b [|c [|d [|e t]]]]]; cbn [four_digits];
    try discriminate.
  intros H. apply andb_true_iff in H as [H Hd].
  apply andb_true_iff in H as [H Hc]. apply andb_true_iff in H as [Ha Hb].
  rewrite (int_four a b c d Ha Hb Hc Hd). intros E.
  assert (Y = 1000 * (ord a - 48) + 100 * (ord b - 48) + 10 * (ord c - 48)
              + (ord d - 48)) by congruence.
  clear E. chars.
Qed.


(* ------------------------------------------------------------------ *)
(** ** Dates *)

Lemma days_before_year_range (Y : Z) :
  1 <= Y <= 9999 ->
  0 <= days_before_year Y
  /\ days_before_year Y + 365 + (if is_leap Y then 1 else 0) <= MAXORDINAL.
Proof.
  intros HY. unfold days_before_year, is_leap, MAXORDINAL.
  destruct (Z.eqb_spec (Y mod 4) 0) as [H4|H4];
    destruct (Z.eqb_spec (Y mod 100) 0) as [H100|H100];
    destruct (Z.eqb_spec (Y mod 400) 0) as [H400|H400];
    cbn [andb orb negb]; cbv zeta;
    Z.div_mod_to_equations; lia.
Qed.

Lemma month_cases (Mo : Z) :
  1 <= Mo <= 12 ->
  Mo = 1 \/ Mo = 2 \/ Mo = 3 \/ Mo = 4 \/ Mo = 5 \/ Mo = 6 \/ Mo = 7
  \/ Mo = 8 \/ Mo = 9 \/ Mo = 10 \/ Mo = 11 \/ Mo = 12.
Proof. lia. Qed.

Lemma days_in_month_range (Y Mo : Z) :
  1 <= Mo <= 12 ->
  28 <= days_in_month Y Mo <= 31
  /\ 0 <= days_before_month Y Mo
  /\ days_before_month Y Mo + days_in_month Y Mo
     <= 365 + (if is_leap Y then 1 else 0).
Proof.
  intros HM. unfold days_in_month, days_before_month.
  destruct (is_leap Y);
    destruct (month_cases Mo HM)
      as [->|[->|[->|[->|[->|[->|[->|[->|[->|[->|[->| ->]]]]]]]]]]];
    simpl; lia.
Qed.

Lemma mkdate_spec (Y Mo D : Z) (dt : date) :
  mkdate Y Mo D = Ok dt <->
  1 <= Y <= 9999 /\ 1 <= Mo <= 12 /\ 1 <= D <= days_in_month Y Mo
  /\ dt = ymd2ord Y Mo D.
Proof.
  unfold mkdate, MINYEAR, MAXYEAR.
  destruct (Z.leb_spec 1 Y); destruct (Z.leb_spec Y 9999);
    destruct (Z.leb_spec 1 Mo); destruct (Z.leb_spec Mo 12);
    destruct (Z.leb_spec 1 D); destruct (Z.leb_spec D (days_in_month Y Mo));
    cbn [andb negb]; split; try discriminate; try lia.
  - intros [= <-]. lia.
  - intros (_ & _ & _ & ->). reflexivity.
Qed.

Lemma mkdate_range (Y Mo D : Z) (dt : date) :
  mkdate Y Mo D = Ok dt -> 1 <= dt <= MAXORDINAL.
Proof.
  intros H. apply mkdate_spec in H as (HY & HM & HD & ->).
  unfold ymd2ord.
  pose proof (days_before_year_range Y HY).
  pose proof (days_in_month_range Y Mo HM).
  lia.
Qed.

Lemma days_before_year_next (Y Y' : Z) :
  1 <= Y -> Y < Y' ->
  days_before_year Y + 365 + (if is_leap Y then 1 else 0)
  <= days_before_year Y'.
Proof.
  intros HY HY'. unfold days_before_year, is_leap.
  destruct (Z.eqb_spec (Y mod 4) 0) as [H4|H4];
    destruct (Z.eqb_spec (Y mod 100) 0) as [H100|H100];
    destruct (Z.eqb_spec (Y mod 400) 0) as [H400|H400];
    cbn [andb orb negb]; cbv zeta;
    Z.div_mod_to_equations; lia.
Qed.

Lemma days_before_month_inj (leap : bool) (M M' D D' : Z) :
  let dim m := if (m =? 2) && leap then 29
               else nth (Z.to_nat m) DAYS_IN_MONTH 0 in
  let dbm m := nth (Z.to_nat m) DAYS_BEFORE_MONTH 0
               + (if (2 <? m) && leap then 1 else 0) in
  1 <= M <= 12 -> 1 <= M' <= 12 ->
  1 <= D <= dim M -> 1 <= D' <= dim M' ->
  dbm M + D = dbm M' + D' -> M = M' /\ D = D'.
Proof.
  intros dim dbm HM HM'. subst dim dbm. cbv beta.
  destruct leap;
    destruct (month_cases M HM)
      as [->|[->|[->|[->|[->|[->|[->|[->|[->|[->|[->| ->]]]]]]]]]]];
    destruct (month_cases M' HM')
      as [->|[->|[->|[->|[->|[->|[->|[->|[->|[->|[->| ->]]]]]]]]]]];
    simpl (nth _ _ _); simpl (_ =? _); simpl (_ <? _); simpl (_ && _);
    cbv beta iota; lia.
Qed.

(** Two dates with the same ordinal are the same date: nothing is lost by
    holding a date as its ordinal. *)
Lemma ymd2ord_inj (Y M D Y' M' D' : Z) (dt : date) :
  mkdate Y M D = Ok dt -> mkdate Y' M' D' = Ok dt ->
  Y = Y' /\ M = M' /\ D = D'.
Proof.
  intros H H'.
  apply mkdate_spec in H as (HY & HM & HD & ->).
  apply mkdate_spec in H' as (HY' & HM' & HD' & E).
  unfold ymd2ord in E.
  pose proof (days_in_month_range Y M HM) as (_ & Hb & Hs).
  pose proof (days_in_month_range Y' M' HM') as (_ & Hb' & Hs').
  assert (Y = Y') as <-.
  { destruct (Z.lt_trichotomy Y Y') as [Hlt|[Heq|Hgt]]; [|assumption|].
    - pose proof (days_before_year_next Y Y' (proj1 HY) Hlt). lia.
    - pose proof (days_before_year_next Y' Y (proj1 HY') Hgt). lia. }
  split; [reflexivity|].
  apply (days_before_month_inj (is_leap Y)); try assumption.
  unfold days_before_month in E. lia.
Qed.

(* ------------------------------------------------------------------ *)
(** ** Birthday *)

Lemma digits_value_raises (s : string) (acc : Z) (e : exn) :
  digits_value acc s = Raise e -> e = ValueError.
Proof.
  revert acc. induction s as [|c s IH]; intros acc; cbn [digits_value].
  - discriminate.
  - destruct (is_decimal c); [apply IH | now intros [= <-]].
Qed.

Lemma int_raises (s : string) (e : exn) : int s = Raise e -> e = ValueError.
Proof.
  unfold int. destruct (nonempty (lstrip s)).
  - apply digits_value_raises.
  - now intros [= <-].
Qed.

Lemma mkdate_raises (Y Mo D : Z) (e : exn) :
  mkdate Y Mo D = Raise e -> e = ValueError.
Proof.
  unfold mkdate.
  repeat match goal with
         | |- context [if ?b then _ else _] => destruct b
         end; now intros [= <-].
Qed.

Lemma strptime_raises (s : string) (e : exn) :
  strptime s = Raise e -> e = ValueError.
Proof.
  unfold strptime.
  destruct (format_regex s) as [|[[[d m] y] rest] l]; [now intros [= <-]|].
  destruct (nonempty rest); [now intros [= <-]|].
  destruct (int y) as [Y|e1] eqn:EY; cbn [rbind];
    [|intros [= <-]; now apply (int_raises y)].
  destruct (int m) as [Mo|e2] eqn:EM; cbn [rbind];
    [|intros [= <-]; now apply (int_raises m)].
  destruct (int d) as [D|e3] eqn:ED; cbn [rbind];
    [|intros [= <-]; now apply (int_raises d)].
  apply mkdate_raises.
Qed.

Lemma Birthday_eq (s : string) :
  Birthday s = if is_ok (strptime s) then Ok (mkField s) else Raise ValueError.
Proof.
  unfold Birthday. destruct (strptime s) as [d|e] eqn:E; cbn [is_ok].
  - reflexivity.
  - apply strptime_raises in E as ->. reflexivity.
Qed.

Lemma Birthday_strptime (s : string) :
  is_ok (Birthday s) = true -> exists d, strptime s = Ok d.
Proof.
  rewrite Birthday_eq. destruct (strptime s) as [d|e]; cbn [is_ok].
  - intros _. now exists d.
  - discriminate.
Qed.

(** C4, as stated, fails: "1.1.2020" is not of the shape DD.MM.YYYY, yet
    [Birthday] accepts it, because [strptime] does not ask for the leading
    zeros of %d and %m. *)
Lemma C4_counterexample :
  Birthday "1.1.2020" = Ok (mkField "1.1.2020")
  /\ DD_MM_YYYY "1.1.2020" = false.
Proof. split; reflexivity. Qed.

(** C4, amended: [Birthday s] succeeds exactly when [s] is D, '.', M, '.',
    Y where D is a text of %d (one of 1-9; or 0 and one of 1-9; or 1 or 2
    and a character that [\d] matches; or 3 and 0 or 1; or a blank and one
    of 1-9), M is a text of %m (one of 1-9; or 0 and one of 1-9; or 1 and
    0, 1 or 2), Y is exactly four characters that [\d] matches, and
    [int] of D, M and Y is a date of the calendar with a year from 1 on;
    otherwise it raises [ValueError]; a constructed birthday renders
    exactly [s]; "29.02.2020" is accepted and "29.02.2021" is not.  Here
    0-9 are the characters '0'..'9' themselves; what [\d] matches is
    [is_decimal], which on the strings of this development (code points up
    to U+00FF) is again '0'..'9'. *)
Theorem C4_Birthday_accepts_strptime_dates (s : string) :
  (is_ok (Birthday s) = true <->
     exists d m y Y Mo D,
       s = d ++ "." ++ m ++ "." ++ y
       /\ day_text d = true
       /\ month_text m = true
       /\ four_digits y = true
       /\ int y = Ok Y /\ int m = Ok Mo /\ int d = Ok D
       /\ 1 <= Y /\ 1 <= Mo <= 12 /\ 1 <= D <= days_in_month Y Mo)
  /\ (is_ok (Birthday s) = false <-> Birthday s = Raise ValueError)
  /\ (forall f, Birthday s = Ok f -> Field_str f = s)
  /\ Birthday "29.02.2020" = Ok (mkField "29.02.2020")
  /\ Birthday "29.02.2021" = Raise ValueError.
Proof.
  split; [|split; [|split; [|split; reflexivity]]].
  - rewrite Birthday_eq. split.
    + destruct (strptime s) as [dt|e] eqn:E; cbn [is_ok]; [|discriminate].
      intros _.
      apply strptime_spec in E
        as (d & m & y & Y & Mo & D & -> & Hd & Hm & Hy & EY & EM & ED & Hdt).
      apply mkdate_spec in Hdt as (HY & HM & HD & _).
      exists d, m, y, Y, Mo, D.
      repeat split; try assumption; lia.
    + intros (d & m & y & Y & Mo & D & -> & Hd & Hm & Hy & EY & EM & ED
              & HY & HM & HD).
      pose proof (four_digits_range y Y Hy EY) as HY'.
      assert (E : strptime (d ++ "." ++ m ++ "." ++ y)
                  = Ok (ymd2ord Y Mo D)).
      { apply strptime_spec. exists d, m, y, Y, Mo, D.
        repeat split; try assumption.
        apply mkdate_spec. repeat split; lia. }
      rewrite E. reflexivity.
  - rewrite Birthday_eq. destruct (is_ok (strptime s)); cbn [is_ok];
      split; congruence.
  - rewrite Birthday_eq. destruct (is_ok (strptime s)); [|discriminate].
    now intros f [= <-].
Qed.

(* ------------------------------------------------------------------ *)
(** ** The weekly birthdays *)

Lemma strptime_range (s : string) (d : date) :
  strptime s = Ok d -> 1 <= d <= MAXORDINAL.
Proof.
  intros H. apply strptime_spec in H
    as (? & ? & ? & Y & Mo & D & _ & _ & _ & _ & _ & _ & _ & H).
  now apply mkdate_range in H.
Qed.

Lemma weekday_cases (d : date) :
  weekday d = 0 \/ weekday d = 1 \/ weekday d = 2 \/ weekday d = 3
  \/ weekday d = 4 \/ weekday d = 5 \/ weekday d = 6.
Proof.
  unfold weekday. pose proof (Z.mod_pos_bound (toordinal d + 6) 7). lia.
Qed.

(** The test of the code on the name of the day is the test on the number
    of the day. *)
Lemma bucket_of_code (d : date) :
  (if existsb (String.eqb (strftime_A d)) ["Saturday"; "Sunday"]
   then "Next Monday" else strftime_A d) = bucket_of d.
Proof.
  unfold bucket_of, is_weekend, strftime_A.
  destruct (weekday_cases d) as [E|[E|[E|[E|[E|[E|E]]]]]]; rewrite E;
    reflexivity.
Qed.

Lemma bucket_of_In (d : date) : In (bucket_of d) BUCKETS.
Proof.
  unfold bucket_of, is_weekend.
  destruct (weekday_cases d) as [E|[E|[E|[E|[E|[E|E]]]]]]; rewrite E;
    simpl; tauto.
Qed.

Lemma add_days_back (today d : date) :
  1 <= d <= MAXORDINAL -> add_days today (sub_days d today) = Ok d.
Proof.
  intros H. unfold add_days, sub_days, toordinal.
  replace (today + (d - today)) with d by lia.
  destruct (Z.ltb_spec 0 d); [|lia].
  destruct (Z.leb_spec d MAXORDINAL); [reflexivity | lia].
Qed.

Lemma bucket_append_spec (day n : string) (week : dict (list string)) :
  In day (dict_keys week) ->
  exists names,
    dict_get day week = Some names
    /\ bucket_append day n week = Ok (dict_set day (names ++ [n])%list week).
Proof.
  intros Hin. unfold bucket_append, dict_getitem.
  destruct (dict_get day week) as [names|] eqn:E.
  - exists names. split; reflexivity.
  - apply dict_get_None_keys in E. contradiction.
Qed.

(** One turn of the loop: the name goes to the end of the bucket of the
    record, if it has one; nothing else changes. *)
Lemma birthdays_step_spec (today : date) (record : ContactRecord)
    (week : dict (list string)) :
  match birthday record with
  | Some b => is_ok (Birthday (value b)) = true
  | None => True
  end ->
  dict_keys week = BUCKETS ->
  exists week',
    birthdays_step today record week = Ok week'
    /\ dict_keys week' = BUCKETS
    /\ forall day names,
         dict_get day week = Some names ->
         dict_get day week'
         = Some (names ++ if in_bucket today day record
                          then [value (name record)] else [])%list.
Proof.
  intros Hv Hk. unfold birthdays_step, in_bucket, upcoming.
  destruct (birthday record) as [b|].
  2:{ exists week. repeat split; [assumption|].
      intros day names ->. now rewrite app_nil_r. }
  apply Birthday_strptime in Hv as [d Hd]. rewrite Hd. cbn [rbind].
  destruct ((0 <=? sub_days d today) && (sub_days d today <? 7)).
  2:{ exists week. repeat split; [assumption|].
      intros day names ->. now rewrite app_nil_r. }
  rewrite (add_days_back today d (strptime_range _ _ Hd)). cbn [rbind].
  assert (Hb : (if existsb (String.eqb (strftime_A d)) ["Saturday"; "Sunday"]
                then bucket_append "Next Monday" (value (name record)) week
                else bucket_append (strftime_A d) (value (name record)) week)
               = bucket_append (bucket_of d) (value (name record)) week).
  { rewrite <- bucket_of_code.
    now destruct (existsb (String.eqb (strftime_A d)) ["Saturday"; "Sunday"]). }
  rewrite Hb.
  assert (Hin : In (bucket_of d) (dict_keys week))
    by (rewrite Hk; apply bucket_of_In).
  destruct (bucket_append_spec (bucket_of d) (value (name record)) week Hin)
    as (old & Hold & ->).
  eexists. split; [reflexivity|]. split.
  - now rewrite dict_keys_set_present.
  - intros day names Hday.
    destruct (String.eqb_spec (bucket_of d) day) as [<-|Hne].
    + rewrite dict_get_set_same. congruence.
    + rewrite dict_get_set_other by congruence.
      now rewrite app_nil_r.
Qed.

Lemma birthdays_loop_spec (today : date) (records : list ContactRecord) :
  Forall (fun record =>
            match birthday record with
            | Some b => is_ok (Birthday (value b)) = true
            | None => True
            end) records ->
  forall week,
    dict_keys week = BUCKETS ->
    exists week',
      birthdays_loop today records week = Ok week'
      /\ dict_keys week' = BUCKETS
      /\ forall day names,
           dict_get day week = Some names ->
           dict_get day week'
           = Some (names ++ map (fun r => value (name r))
                              (filter (in_bucket today day) records))%list.
Proof.
  induction 1 as [|record records Hr Hrs IH]; intros week Hk.
  - exists week. repeat split; [assumption|].
    intros day names ->. cbn. now rewrite app_nil_r.
  - destruct (birthdays_step_spec today record week Hr Hk)
      as (week1 & E1 & Hk1 & H1).
    destruct (IH week1 Hk1) as (week' & E' & Hk' & H').
    exists week'. cbn [birthdays_loop]. rewrite E1. cbn [rbind].
    repeat split; [assumption | assumption |].
    intros day names Hday.
    rewrite (H' day _ (H1 day names Hday)). f_equal.
    rewrite <- app_assoc. f_equal. cbn [filter].
    destruct (in_bucket today day record); reflexivity.
Qed.

Lemma empty_week_get (day : string) :
  In day BUCKETS -> dict_get day empty_week = Some [].
Proof.
  intros H. cbn in H.
  destruct H as [<-|[<-|[<-|[<-|[<-|[<-|[]]]]]]]; reflexivity.
Qed.

Lemma upcoming_spec (today : date) (record : ContactRecord) (d : date) :
  upcoming today record = Some d <->
  exists b, birthday record = Some b /\ strptime (value b) = Ok d
            /\ 0 <= sub_days d today < 7.
Proof.
  unfold upcoming. split.
  - destruct (birthday record) as [b|]; [|discriminate].
    destruct (strptime (value b)) as [d'|] eqn:Hs; [|discriminate].
    destruct (Z.leb_spec 0 (sub_days d' today));
      destruct (Z.ltb_spec (sub_days d' today) 7); cbn [andb];
      try discriminate.
    intros [= ->]. exists b. repeat split; first [reflexivity | assumption].
  - intros (b & -> & -> & H1 & H2).
    destruct (Z.leb_spec 0 (sub_days d today)); [|lia].
    destruct (Z.ltb_spec (sub_days d today) 7); [reflexivity | lia].
Qed.

(** C1: with every stored birthday a valid one, the weekly query returns
    the six buckets in their order; the bucket of a day holds, in the
    order of the book, the names of the records whose stored date [d],
    read with its own year, has [0 <= d - today < 7] and falls on that
    day, Saturdays and Sundays counting for "Next Monday"; so a name is in
    the result exactly when its record has such a date. *)
Theorem C1_birthdays_per_week (today : date) (book : AddressBook) :
  valid_birthdays book ->
  exists week,
    get_birthdays_per_week today book = Ok week
    /\ dict_keys week = BUCKETS
    /\ (forall day, In day BUCKETS ->
          dict_get day week
          = Some (map (fun r => value (name r))
                    (filter (in_bucket today day) (dict_values book))))
    /\ (forall n,
          (exists day names, dict_get day week = Some names /\ In n names)
          <->
          (exists record b d,
              In record (dict_values book)
              /\ value (name record) = n
              /\ birthday record = Some b
              /\ strptime (value b) = Ok d
              /\ 0 <= sub_days d today < 7))
    /\ (forall record b d,
          In record (dict_values book) ->
          birthday record = Some b ->
          strptime (value b) = Ok d ->
          0 <= sub_days d today < 7 ->
          exists names,
            dict_get (if (weekday d =? 5) || (weekday d =? 6)
                      then "Next Monday"
                      else nth (Z.to_nat (weekday d)) DAY_NAMES "") week
            = Some names
            /\ In (value (name record)) names).
Proof.
  intros Hv. unfold get_birthdays_per_week.
  destruct (birthdays_loop_spec today (dict_values book) Hv empty_week eq_refl)
    as (week & E & Hk & Hget).
  assert (Hb : forall day, In day BUCKETS ->
            dict_get day week
            = Some (map (fun r => value (name r))
                      (filter (in_bucket today day) (dict_values book)))).
  { intros day Hday. now rewrite (Hget day [] (empty_week_get day Hday)). }
  assert (Hplace : forall record d,
            In record (dict_values book) ->
            upcoming today record = Some d ->
            exists names, dict_get (bucket_of d) week = Some names
                          /\ In (value (name record)) names).
  { intros record d Hin Hup. eexists. split; [apply Hb, bucket_of_In|].
    apply in_map_iff. exists record. split; [reflexivity|].
    apply filter_In. split; [assumption|].
    unfold in_bucket. rewrite Hup. apply String.eqb_refl. }
  exists week. repeat split; try assumption.
  - intros (day & names & Hday & Hn).
    assert (Hin : In day BUCKETS).
    { rewrite <- Hk. destruct (in_dec string_dec day (dict_keys week))
        as [|Hnot]; [assumption|].
      apply dict_get_None_keys in Hnot. congruence. }
    rewrite (Hb day Hin) in Hday. injection Hday as <-.
    apply in_map_iff in Hn as (record & Hname & Hf).
    apply filter_In in Hf as [Hrec Hbucket].
    unfold in_bucket in Hbucket.
    destruct (upcoming today record) as [d|] eqn:Hup; [|discriminate].
    apply upcoming_spec in Hup as (b & Hbd & Hd & Hrange).
    exists record, b, d. repeat split; try assumption; lia.
  - intros (record & b & d & Hin & Hname & Hbd & Hd & Hrange).
    assert (Hup : upcoming today record = Some d)
      by (apply upcoming_spec; exists b; repeat split; try assumption; lia).
    destruct (Hplace record d Hin Hup) as (names & Hg & Hn).
    exists (bucket_of d), names. split; [assumption | now rewrite <- Hname].
  - intros record b d Hin Hbd Hd Hrange.
    apply (Hplace record d Hin).
    apply upcoming_spec. exists b. repeat split; try assumption; lia.
Qed.

Lemma Name_ok_eq (s : string) :
  Name s = if is_ok (Name s) then Ok (mkField s) else Raise ValueError.
Proof. unfold Name. now destruct (negb (isalpha s) || (len s <? 2)). Qed.

Lemma Phone_ok_eq (s : string) :
  Phone s = if is_ok (Phone s) then Ok (mkField s) else Raise ValueError.
Proof. unfold Phone. now destruct (negb (isdigit s) || negb (len s =? 10)). Qed.

Lemma Birthday_ok_eq (s : string) :
  Birthday s = if is_ok (Birthday s) then Ok (mkField s) else Raise ValueError.
Proof. rewrite Birthday_eq. now destruct (is_ok (strptime s)). Qed.

(** The handlers keep the stored birthdays valid, so the books they build
    from the empty one satisfy the premise of the weekly query. *)
Lemma valid_birthdays_call (today : date) (h : handler) (args : list string)
    (book : AddressBook) :
  valid_birthdays book -> valid_birthdays (snd (call today h args book)).
Proof.
  intros Hv.
  assert (Hfind : forall n record, find n book = Some record ->
            match birthday record with
            | Some b => is_ok (Birthday (value b)) = true
            | None => True
            end).
  { intros n record Hf. apply dict_get_In_values in Hf.
    unfold valid_birthdays in Hv. rewrite Forall_forall in Hv.
    exact (Hv _ Hf). }
  destruct h; cbn [call];
    unfold handle_add, handle_change, handle_phone, handle_all,
      handle_add_birthday, handle_show_birthday, handle_birthdays;
    rewrite input_error_snd.
  - unfold handle_add_func.
    destruct args as [|n [|phone [|? ?]]]; try exact Hv.
    unfold bind, lift, modify_book, ret, Record_init, add_phone, rbind.
    destruct (Name n); [|exact Hv].
    destruct (Phone phone); [|exact Hv].
    cbn. apply dict_set_values_Forall; [exact I | exact Hv].
  - unfold handle_change_func.
    destruct args as [|n [|new_phone [|? ?]]]; try exact Hv.
    unfold bind, get_book, lift, store, modify_book, ret.
    destruct (find n book) as [record|] eqn:Hf; [|exact Hv].
    destruct (getitem (phones record) 0); [|exact Hv].
    cbn. apply dict_set_values_Forall; [|exact Hv].
    cbn. exact (Hfind n record Hf).
  - unfold handle_phone_func.
    destruct args as [|n [|? ?]]; try exact Hv.
    unfold bind, get_book, lift, ret.
    destruct (find n book) as [record|]; [|exact Hv].
    destruct (getitem (phones record) 0); exact Hv.
  - exact Hv.
  - unfold handle_add_birthday_func.
    destruct args as [|n [|b [|? ?]]]; try exact Hv.
    unfold bind, get_book, lift, store, modify_book, ret.
    destruct (find n book) as [record|] eqn:Hf; [|exact Hv].
    unfold add_birthday, rbind. rewrite (Birthday_ok_eq b).
    destruct (is_ok (Birthday b)) eqn:Hb; [|exact Hv].
    cbn. apply dict_set_values_Forall; [|exact Hv].
    cbn. exact Hb.
  - unfold handle_show_birthday_func.
    destruct args as [|n [|? ?]]; try exact Hv.
    unfold bind, get_book, ret.
    destruct (find n book) as [[? ? [b|]]|]; exact Hv.
  - unfold handle_birthdays_func, bind, get_book, lift, ret.
    destruct (get_birthdays_per_week today book); exact Hv.
Qed.

Lemma C1_witness :
  let book :=
    [("Bob", mkRecord (mkField "Bob") [] (Some (mkField "12.6.2024")));
     ("Alice", mkRecord (mkField "Alice") [] (Some (mkField "15.06.2024")));
     ("Carl", mkRecord (mkField "Carl") [] (Some (mkField "16.06.2024")));
     ("Dan", mkRecord (mkField "Dan") [] (Some (mkField "18.06.2024")));
     ("Eve", mkRecord (mkField "Eve") [] None)] in
  exists week,
    get_birthdays_per_week (ymd2ord 2024 6 11) book = Ok week
    /\ dict_get "Wednesday" week = Some ["Bob"]
    /\ dict_get "Next Monday" week = Some ["Alice"; "Carl"].
Proof.
  intros book.
  assert (Hv : valid_birthdays book) by (repeat constructor).
  destruct (C1_birthdays_per_week (ymd2ord 2024 6 11) book Hv)
    as (week & E & _ & Hb & _).
  exists week. split; [exact E|]. split.
  - rewrite Hb by (simpl; tauto). reflexivity.
  - rewrite Hb by (simpl; tauto). reflexivity.
Defined.

(* ------------------------------------------------------------------ *)
(** ** The handlers and [input_error] *)

Lemma birthdays_step_raises (today : date) (record : ContactRecord)
    (week : dict (list string)) (e : exn) :
  birthdays_step today record week = Raise e -> e <> OverflowError.
Proof.
  unfold birthdays_step. destruct (birthday record) as [b|]; [|discriminate].
  destruct (strptime (value b)) as [d|e'] eqn:Hd; cbn [rbind].
  2:{ intros [= <-]. apply strptime_raises in Hd as ->. discriminate. }
  destruct ((0 <=? sub_days d today) && (sub_days d today <? 7));
    [|discriminate].
  rewrite (add_days_back today d (strptime_range _ _ Hd)). cbn [rbind].
  unfold bucket_append, dict_getitem.
  destruct (existsb (String.eqb (strftime_A d)) ["Saturday"; "Sunday"]);
    match goal with
    | |- context [dict_get ?k week] => destruct (dict_get k week)
    end; cbn [rbind]; intros [= <-]; discriminate.
Qed.

Lemma birthdays_loop_raises (today : date) (records : list ContactRecord)
    (week : dict (list string)) (e : exn) :
  birthdays_loop today records week = Raise e -> e <> OverflowError.
Proof.
  revert week. induction records as [|record records IH]; intros week;
    cbn [birthdays_loop]; [discriminate|].
  destruct (birthdays_step today record week) as [week1|e1] eqn:E1;
    cbn [rbind].
  - apply IH.
  - intros [= <-]. now apply birthdays_step_raises in E1.
Qed.

Lemma input_error_catches (func : M pyval) (book : AddressBook) :
  (forall e book', func book = (Raise e, book') -> e <> OverflowError) ->
  exists v, input_error func book = (Ok v, snd (func book)).
Proof.
  intros H. unfold input_error.
  destruct (func book) as [[v|e] book'] eqn:E; cbn [snd]; [eauto|].
  destruct e; eauto. exfalso. now apply (H OverflowError book').
Qed.

(** No handler lets an exception out. *)
Lemma call_returns (today : date) (h : handler) (args : list string)
    (book : AddressBook) :
  exists v, call today h args book = (Ok v, snd (call today h args book)).
Proof.
  assert (Hsnd : forall func, snd (input_error func book) = snd (func book))
    by (intros; apply input_error_snd).
  destruct h; cbn [call];
    unfold handle_add, handle_change, handle_phone, handle_all,
      handle_add_birthday, handle_show_birthday, handle_birthdays;
    rewrite Hsnd; apply input_error_catches; intros e book'.
  - unfold handle_add_func.
    destruct args as [|n [|phone [|? ?]]]; try discriminate.
    unfold bind, lift, modify_book, ret, Record_init, add_phone, rbind.
    rewrite (Name_ok_eq n). destruct (is_ok (Name n)); [|now intros [= <- _]].
    rewrite (Phone_ok_eq phone). destruct (is_ok (Phone phone));
      [discriminate | now intros [= <- _]].
  - unfold handle_change_func.
    destruct args as [|n [|new_phone [|? ?]]]; try discriminate.
    unfold bind, get_book, lift, store, modify_book, ret, getitem.
    destruct (find n book) as [record|]; [|discriminate].
    destruct (phones record); cbn; [now intros [= <- _] | discriminate].
  - unfold handle_phone_func.
    destruct args as [|n [|? ?]]; try discriminate.
    unfold bind, get_book, lift, ret, getitem.
    destruct (find n book) as [record|]; [|discriminate].
    destruct (phones record); cbn; [now intros [= <- _] | discriminate].
  - discriminate.
  - unfold handle_add_birthday_func.
    destruct args as [|n [|b [|? ?]]]; try discriminate.
    unfold bind, get_book, lift, store, modify_book, ret, add_birthday, rbind.
    destruct (find n book) as [record|]; [|discriminate].
    rewrite (Birthday_ok_eq b). destruct (is_ok (Birthday b));
      [discriminate | now intros [= <- _]].
  - unfold handle_show_birthday_func.
    destruct args as [|n [|? ?]]; try discriminate.
    unfold bind, get_book, ret.
    destruct (find n book) as [[? ? [b|]]|]; discriminate.
  - unfold handle_birthdays_func, bind, get_book, lift, ret,
      get_birthdays_per_week.
    destruct (birthdays_loop today (dict_values book) empty_week) eqn:E;
      [discriminate|].
    intros [= <- _]. now apply birthdays_loop_raises in E.
Qed.

(** C3, as stated, fails: a wrong number of arguments is answered with the
    handler's own text, not with the fixed "Invalid input" message, and a
    missing name is answered by [handle_show_birthday] with a text of its
    own. *)
Lemma C3_counterexample :
  handle_add ["Bob"] empty_book
  = (Ok (VStr "Invalid input. Please provide a name and a phone number."),
     empty_book)
  /\ "Invalid input. Please provide a name and a phone number." <> MSG_INDEX
  /\ find "Bob" empty_book = None
  /\ handle_show_birthday ["Bob"] empty_book
     = (Ok (VStr "Contact not found or birthday not specified."), empty_book)
  /\ "Contact not found or birthday not specified." <> MSG_KEY.
Proof. repeat split; discriminate. Qed.

(** C3, amended: no exception leaves a handler.  [input_error] turns a
    [ValueError] into "Give me name and phone please.", a [KeyError] into
    "Contact not found." and an [IndexError] into "Invalid input. Please
    provide the required information.".  So a name, phone or birthday that
    fails validation is answered "Give me name and phone please."; a name
    that is not in the book is answered "Contact not found." by
    [handle_change], [handle_phone] and [handle_add_birthday], and "Contact
    not found or birthday not specified." by [handle_show_birthday]; a
    wrong number of arguments is answered with the handler's own "Invalid
    input. Please provide ..." text; the fixed "Invalid input" message is
    the answer of [handle_change] and [handle_phone] for a record without
    phones.  In all these cases the book is unchanged. *)
Theorem C3_handler_messages (today : date) (book : AddressBook) :
  (forall h args,
      exists v, call today h args book
                = (Ok v, snd (call today h args book)))
  /\ (forall func book',
        (func book = (Raise ValueError, book') ->
         input_error func book
         = (Ok (VStr "Give me name and phone please."), book'))
        /\ (func book = (Raise KeyError, book') ->
            input_error func book = (Ok (VStr "Contact not found."), book'))
        /\ (func book = (Raise IndexError, book') ->
            input_error func book
            = (Ok (VStr
                "Invalid input. Please provide the required information."),
               book')))
  /\ (forall n phone,
        is_ok (Name n) = false \/ is_ok (Phone phone) = false ->
        handle_add [n; phone] book
        = (Ok (VStr "Give me name and phone please."), book))
  /\ (forall n b record,
        find n book = Some record -> is_ok (Birthday b) = false ->
        handle_add_birthday [n; b] book
        = (Ok (VStr "Give me name and phone please."), book))
  /\ (forall n x,
        find n book = None ->
        handle_change [n; x] book = (Ok (VStr "Contact not found."), book)
        /\ handle_phone [n] book = (Ok (VStr "Contact not found."), book)
        /\ handle_add_birthday [n; x] book
           = (Ok (VStr "Contact not found."), book)
        /\ handle_show_birthday [n] book
           = (Ok (VStr "Contact not found or birthday not specified."),
              book))
  /\ (forall args,
        List.length args <> 2%nat ->
        handle_add args book
        = (Ok (VStr
            "Invalid input. Please provide a name and a phone number."),
           book)
        /\ handle_change args book
           = (Ok (VStr
               "Invalid input. Please provide a name and a new phone number."),
              book)
        /\ handle_add_birthday args book
           = (Ok (VStr
               "Invalid input. Please provide a name and a birthday (DD.MM.YYYY)."),
              book))
  /\ (forall args,
        List.length args <> 1%nat ->
        handle_phone args book
        = (Ok (VStr "Invalid input. Please provide a name."), book)
        /\ handle_show_birthday args book
           = (Ok (VStr "Invalid input. Please provide a name."), book))
  /\ (forall n x record,
        find n book = Some record -> phones record = [] ->
        handle_phone [n] book
        = (Ok (VStr
            "Invalid input. Please provide the required information."),
           book)
        /\ handle_change [n; x] book
           = (Ok (VStr
               "Invalid input. Please provide the required information."),
              book)).
Proof.
  split; [intros h args; apply call_returns|].
  split.
  { intros func book'. unfold input_error.
    repeat split; intros ->; reflexivity. }
  split.
  { intros n phone H. unfold handle_add, input_error, handle_add_func, bind,
      lift, modify_book, ret, Record_init, add_phone, rbind.
    rewrite (Name_ok_eq n). destruct (is_ok (Name n)); [|reflexivity].
    rewrite (Phone_ok_eq phone). destruct (is_ok (Phone phone)); [|reflexivity].
    destruct H; discriminate. }
  split.
  { intros n b record Hf Hb. unfold handle_add_birthday, input_error,
      handle_add_birthday_func, bind, get_book, lift, store, modify_book, ret,
      add_birthday, rbind.
    rewrite Hf, (Birthday_ok_eq b), Hb. reflexivity. }
  split.
  { intros n x Hf. unfold handle_change, handle_phone, handle_add_birthday,
      handle_show_birthday, input_error, handle_change_func,
      handle_phone_func, handle_add_birthday_func, handle_show_birthday_func,
      bind, get_book, ret.
    rewrite Hf. repeat split. }
  split.
  { intros args Hl.
    destruct args as [|a [|b [|c args]]]; cbn in Hl; try lia;
      repeat split. }
  split.
  { intros args Hl.
    destruct args as [|a [|b args]]; cbn in Hl; try lia; repeat split. }
  intros n x record Hf Hp. unfold handle_change, handle_phone, input_error,
    handle_change_func, handle_phone_func, bind, get_book, lift, ret, getitem.
  rewrite Hf, Hp. split; reflexivity.
Qed.

(* ------------------------------------------------------------------ *)
(** ** Scenarios *)

Example scenario_edit_sole_phone :
  edit_phone (record_of "Bob" ["1234567890"]) "1234567890" "0987654321"
  = Ok (record_of "Bob" ["0987654321"]).
Proof. reflexivity. Qed.

Example scenario_saturday_goes_to_next_monday :
  strptime "15.06.2024" = Ok (ymd2ord 2024 6 15)
  /\ strftime_A (ymd2ord 2024 6 15) = "Saturday"
  /\ get_birthdays_per_week (ymd2ord 2024 6 10)
       [("Alice", mkRecord (mkField "Alice") []
                    (Some (mkField "15.06.2024")))]
     = Ok [("Monday", []); ("Tuesday", []); ("Wednesday", []);
           ("Thursday", []); ("Friday", []); ("Next Monday", ["Alice"])].
Proof. repeat split. Qed.

Example scenario_phone_of_unknown_name :
  handle_phone ["Carol"] empty_book
  = (Ok (VStr "Contact not found."), empty_book).
Proof. reflexivity. Qed.

Example scenario_add_invalid_phone :
  handle_add ["B"; "123"] empty_book
  = (Ok (VStr "Give me name and phone please."), empty_book).
Proof. reflexivity. Qed.

Example scenario_change_stores_any_text :
  let book := snd (handle_add ["Bob"; "1234567890"] empty_book) in
  handle_change ["Bob"; "abc"] book
  = (Ok (VStr "Contact updated."), [("Bob", record_of "Bob" ["abc"])]).
Proof. reflexivity. Qed.

Example scenario_birthdays_messages :
  let book :=
    [("Bob", mkRecord (mkField "Bob") [] (Some (mkField "12.6.2024")));
     ("Alice", mkRecord (mkField "Alice") [] (Some (mkField "15.06.2024")))] in
  handle_birthdays (ymd2ord 2024 6 11) book
  = (Ok (VList ["Next Wednesday: Bob"; "Next Next Monday: Alice"]), book).
Proof. reflexivity. Qed.

(* ================================================================== *)
(** * Further properties of the code *)

(* ------------------------------------------------------------------ *)
(** ** Name *)

Lemma len_ltb_2 (s : string) :
  (len s <? 2) = negb (Nat.leb 2 (String.length s)).
Proof.
  unfold len. destruct (Nat.leb_spec 2 (String.length s));
    destruct (Z.ltb_spec (Z.of_nat (String.length s)) 2); simpl;
    first [reflexivity | exfalso; lia].
Qed.

Lemma Name_eq (s : string) :
  Name s =
  if Nat.leb 2 (String.length s) && all_chars isalpha_char s
  then Ok (mkField s) else Raise ValueError.
Proof.
  unfold Name, isalpha. rewrite len_ltb_2.
  destruct s as [|c s]; [reflexivity|].
  cbn [nonempty andb].
  destruct (all_chars isalpha_char (String c s));
    destruct (Nat.leb 2 (String.length (String c s))); reflexivity.
Qed.

(** X1: [Name s] succeeds exactly when [s] has at least two characters and
    all of them are alphabetic; otherwise it raises [ValueError]; the
    name renders as [s]. *)
Theorem X1_Name_alphabetic_length_2 (s : string) :
  (is_ok (Name s) = true <->
     (2 <= String.length s)%nat /\ all_chars isalpha_char s = true)
  /\ (is_ok (Name s) = false <-> Name s = Raise ValueError)
  /\ (forall f, Name s = Ok f -> Field_str f = s).
Proof.
  rewrite Name_eq.
  destruct (Nat.leb_spec 2 (String.length s)) as [Hl|Hl];
    destruct (all_chars isalpha_char s) eqn:Ha; cbn [andb is_ok];
    repeat split; try tauto; try discriminate; try congruence; try lia.
  all: try (intros f [= <-]; reflexivity).
  all: intros [? ?]; first [lia | discriminate].
Qed.

(* ------------------------------------------------------------------ *)
(** ** Phones of a record *)

Lemma find_phone_loop_None (ps : list Field) (phone : string) :
  find_phone_loop ps phone = None <->
  forall p, In p ps -> value p <> phone.
Proof.
  induction ps as [|p ps IH]; simpl.
  - split; [intros _ p [] | reflexivity].
  - destruct (String.eqb_spec (value p) phone) as [E|E].
    + split; [discriminate|]. intros H. exfalso. apply (H p); auto.
    + rewrite IH. split.
      * intros H q [<-|Hq]; auto.
      * intros H q Hq. apply H. now right.
Qed.

Lemma find_phone_loop_Some (ps : list Field) (phone : string) (f : Field) :
  find_phone_loop ps phone = Some f <->
  exists pre post,
    ps = (pre ++ f :: post)%list /\ value f = phone
    /\ forall p, In p pre -> value p <> phone.
Proof.
  induction ps as [|p ps IH]; simpl.
  - split; [discriminate|]. intros (pre & post & H & _).
    destruct pre; discriminate.
  - destruct (String.eqb_spec (value p) phone) as [E|E].
    + split.
      * intros [= <-]. exists [], ps. repeat split; [assumption|].
        intros q [].
      * intros (pre & post & H & Hf & Hpre). destruct pre as [|q pre].
        -- now injection H as ->.
        -- injection H as -> _. exfalso. apply (Hpre q); [now left | exact E].
    + rewrite IH. split.
      * intros (pre & post & -> & Hf & Hpre). exists (p :: pre), post.
        repeat split; [assumption|]. intros q [<-|Hq]; auto.
      * intros (pre & post & H & Hf & Hpre). destruct pre as [|q pre].
        -- injection H as -> _. contradiction.
        -- injection H as -> ->. exists pre, post. repeat split; [assumption|].
           intros q' Hq'. apply Hpre. now right.
Qed.

(** X2: [find_phone] gives [None] exactly when no stored phone has the
    given value, and otherwise the first entry with that value: every
    entry before it has another value. *)
Theorem X2_find_phone_first_match
    (r : ContactRecord) (phone : string) :
  (find_phone r phone = None <->
     forall p, In p (phones r) -> value p <> phone)
  /\ (forall f,
        find_phone r phone = Some f <->
        exists pre post,
          phones r = (pre ++ f :: post)%list /\ value f = phone
          /\ forall p, In p pre -> value p <> phone).
Proof.
  split; [apply find_phone_loop_None | intros f; apply find_phone_loop_Some].
Qed.

Lemma find_phone_loop_app (ps qs : list Field) (phone : string) :
  find_phone_loop (ps ++ qs) phone =
  match find_phone_loop ps phone with
  | Some f => Some f
  | None => find_phone_loop qs phone
  end.
Proof.
  induction ps as [|p ps IH]; simpl; [reflexivity|].
  now destruct (String.eqb (value p) phone).
Qed.

(** X3: [add_phone] with a text that [Phone] accepts puts a phone of that
    value at the end of the list and changes nothing else, and
    [find_phone] then finds a phone of that value; with a text that
    [Phone] rejects it raises [ValueError]. *)
Theorem X3_add_phone_appends_then_found
    (r : ContactRecord) (phone : string) :
  (is_ok (Phone phone) = false -> add_phone r phone = Raise ValueError)
  /\ (is_ok (Phone phone) = true ->
      exists r',
        add_phone r phone = Ok r'
        /\ name r' = name r /\ birthday r' = birthday r
        /\ phones r' = (phones r ++ [mkField phone])%list
        /\ exists f, find_phone r' phone = Some f /\ value f = phone).
Proof.
  unfold add_phone. rewrite (Phone_ok_eq phone).
  destruct (is_ok (Phone phone)); cbn [rbind]; split; try discriminate;
    try reflexivity.
  intros _. eexists. split; [reflexivity|]. cbn [name birthday phones].
  repeat split. unfold find_phone. cbn [phones].
  rewrite find_phone_loop_app.
  destruct (find_phone_loop (phones r) phone) as [f|] eqn:E.
  - exists f. split; [reflexivity|].
    apply find_phone_loop_Some in E as (? & ? & _ & Hf & _). exact Hf.
  - exists (mkField phone). cbn. now rewrite String.eqb_refl.
Qed.

(* ------------------------------------------------------------------ *)
(** ** [remove_phone] *)

Lemma remove_phone_iter_past (fuel i : nat) (ps : list Field) (phone : string) :
  (List.length ps <= i)%nat -> remove_phone_iter fuel i ps phone = ps.
Proof.
  intros H. destruct fuel; [reflexivity|]. cbn [remove_phone_iter].
  apply nth_error_None in H. now rewrite H.
Qed.

Lemma nth_error_at (pre suf : list Field) :
  nth_error (pre ++ suf) (List.length pre) = nth_error suf 0.
Proof. rewrite nth_error_app2 by lia. now rewrite Nat.sub_diag. Qed.

Lemma remove_at_app (pre suf : list Field) (p : Field) :
  remove_at (List.length pre) (pre ++ p :: suf) = (pre ++ suf)%list.
Proof. induction pre as [|x pre IH]; simpl; [reflexivity | now rewrite IH]. Qed.

(** The loop, started at index [length pre] with enough fuel, leaves the
    part before the index alone and scans the rest. *)
Lemma remove_phone_iter_scan (phone : string) (fuel : nat) :
  forall pre suf,
    (List.length suf <= fuel)%nat ->
    remove_phone_iter fuel (List.length pre) (pre ++ suf) phone
    = (pre ++ remove_scan suf phone)%list.
Proof.
  induction fuel as [|fuel IH]; intros pre suf Hf.
  - destruct suf; [reflexivity | simpl in Hf; lia].
  - cbn [remove_phone_iter]. rewrite nth_error_at.
    destruct suf as [|p suf]; [reflexivity|]. cbn [nth_error remove_scan].
    cbn [List.length] in Hf.
    destruct (String.eqb (value p) phone).
    + rewrite remove_at_app. destruct suf as [|q rest].
      * rewrite remove_phone_iter_past; [reflexivity|].
        rewrite app_nil_r. lia.
      * replace (S (List.length pre)) with (List.length (pre ++ [q]))
          by (rewrite length_app; simpl; lia).
        replace (pre ++ q :: rest)%list with ((pre ++ [q]) ++ rest)%list
          by (now rewrite <- app_assoc).
        rewrite IH by (cbn [List.length] in Hf; lia).
        now rewrite <- app_assoc.
    + replace (S (List.length pre)) with (List.length (pre ++ [p]))
        by (rewrite length_app; simpl; lia).
      replace (pre ++ p :: suf)%list with ((pre ++ [p]) ++ suf)%list
        by (now rewrite <- app_assoc).
      rewrite IH by lia. now rewrite <- app_assoc.
Qed.

Lemma remove_phone_eq (r : ContactRecord) (phone : string) :
  remove_phone r phone
  = Ok (mkRecord (name r) (remove_scan (phones r) phone) (birthday r)).
Proof.
  unfold remove_phone. f_equal. f_equal.
  exact (remove_phone_iter_scan phone _ [] (phones r) (le_n _)).
Qed.

(** Induction two entries at a time, as [remove_scan] goes. *)
Lemma list_pair_ind (P : list Field -> Prop) :
  P [] -> (forall p, P [p]) ->
  (forall p q rest, P rest -> P (q :: rest) -> P (p :: q :: rest)) ->
  forall ps, P ps.
Proof.
  intros H0 H1 H2 ps.
  assert (H : P ps /\ forall p, P (p :: ps)).
  { induction ps as [|q ps [IH1 IH2]]; [split; auto|].
    split; [apply IH2|]. intros p. apply H2; auto. }
  apply H.
Qed.

Lemma remove_scan_keeps_others (ps : list Field) (phone : string) :
  filter (fun p => negb (String.eqb (value p) phone)) (remove_scan ps phone)
  = filter (fun p => negb (String.eqb (value p) phone)) ps.
Proof.
  induction ps as [| p | p q rest IH1 IH2] using list_pair_ind.
  - reflexivity.
  - simpl. destruct (String.eqb (value p) phone) eqn:E; simpl; now rewrite ?E.
  - cbn [remove_scan]. destruct (String.eqb (value p) phone) eqn:E.
    + cbn [filter]. rewrite E. cbn [negb]. now rewrite IH1.
    + cbn [filter]. rewrite E. cbn [negb]. f_equal. exact IH2.
Qed.

Lemma remove_scan_absent (ps : list Field) (phone : string) :
  (forall p, In p ps -> value p <> phone) -> remove_scan ps phone = ps.
Proof.
  induction ps as [|p ps IH]; [reflexivity|]. intros H. cbn [remove_scan].
  destruct (String.eqb_spec (value p) phone) as [E|E].
  - exfalso. apply (H p); [now left | exact E].
  - f_equal. apply IH. intros q Hq. apply H. now right.
Qed.

Lemma remove_scan_two (p q : Field) (rest : list Field) (phone : string) :
  remove_scan (p :: q :: rest) phone
  = if String.eqb (value p) phone then q :: remove_scan rest phone
    else p :: remove_scan (q :: rest) phone.
Proof. reflexivity. Qed.

Lemma remove_scan_length (ps : list Field) (phone : string) :
  (List.length (remove_scan ps phone) <= List.length ps)%nat.
Proof.
  induction ps as [| p | p q rest IH1 IH2] using list_pair_ind.
  - simpl. lia.
  - simpl. destruct (String.eqb (value p) phone); simpl; lia.
  - rewrite remove_scan_two. destruct (String.eqb (value p) phone);
      cbn [List.length] in *; lia.
Qed.

Lemma remove_scan_no_adjacent (ps : list Field) (phone : string) :
  no_adjacent ps phone = true ->
  remove_scan ps phone
  = filter (fun p => negb (String.eqb (value p) phone)) ps.
Proof.
  induction ps as [| p | p q rest IH1 IH2] using list_pair_ind.
  - reflexivity.
  - intros _. simpl. now destruct (String.eqb (value p) phone).
  - intros H.
    assert (Hpq : negb (String.eqb (value p) phone
                        && String.eqb (value q) phone) = true
                  /\ no_adjacent (q :: rest) phone = true)
      by (apply andb_true_iff; exact H).
    destruct Hpq as [Hpq Hrest].
    rewrite remove_scan_two.
    set (f := fun p => negb (String.eqb (value p) phone)) in *.
    change (filter f (p :: q :: rest))
      with (if f p then p :: filter f (q :: rest) else filter f (q :: rest)).
    unfold f at 1.
    destruct (String.eqb (value p) phone) eqn:Ep; cbn [negb].
    + destruct (String.eqb (value q) phone) eqn:Eq; [discriminate|].
      change (filter f (q :: rest))
        with (if f q then q :: filter f rest else filter f rest).
      unfold f at 1. rewrite Eq. cbn [negb]. f_equal. apply IH1.
      destruct rest as [|x rest]; [reflexivity|].
      assert (Hx : negb (String.eqb (value q) phone
                         && String.eqb (value x) phone) = true
                   /\ no_adjacent (x :: rest) phone = true)
        by (apply andb_true_iff; exact Hrest).
      apply Hx.
    + f_equal. exact (IH2 Hrest).
Qed.

Lemma remove_scan_incl (ps : list Field) (phone : string) (x : Field) :
  In x (remove_scan ps phone) -> In x ps.
Proof.
  induction ps as [| p | p q rest IH1 IH2] using list_pair_ind.
  - intros [].
  - simpl. destruct (String.eqb (value p) phone); simpl; tauto.
  - rewrite remove_scan_two. destruct (String.eqb (value p) phone).
    + intros [<-|H]; [right; now left | right; right; now apply IH1].
    + intros [<-|H]; [now left | right; now apply IH2].
Qed.

(** X4: [remove_phone] raises nothing and keeps the name and the birthday;
    every phone with another value stays, in the same order; every phone
    left was there before; a record with no phone of that value is
    returned as it was; the loop ends within as many turns as there are
    phones. *)
Theorem X4_remove_phone_keeps_other_phones
    (r : ContactRecord) (phone : string) :
  exists r',
    remove_phone r phone = Ok r'
    /\ name r' = name r /\ birthday r' = birthday r
    /\ filter (fun p => negb (String.eqb (value p) phone)) (phones r')
       = filter (fun p => negb (String.eqb (value p) phone)) (phones r)
    /\ (forall p, In p (phones r') -> In p (phones r))
    /\ (List.length (phones r') <= List.length (phones r))%nat
    /\ (forall fuel, (List.length (phones r) <= fuel)%nat ->
          remove_phone_iter fuel 0 (phones r) phone = phones r')
    /\ ((forall p, In p (phones r) -> value p <> phone) -> r' = r).
Proof.
  rewrite remove_phone_eq. eexists. split; [reflexivity|].
  cbn [name birthday phones]. repeat split.
  - apply remove_scan_keeps_others.
  - intros p. apply remove_scan_incl.
  - apply remove_scan_length.
  - intros fuel Hf. exact (remove_phone_iter_scan phone fuel [] (phones r) Hf).
  - intros H. rewrite remove_scan_absent by assumption. now destruct r.
Qed.

(** X5: when no two neighbouring phones both have the given value (so when
    it occurs once), [remove_phone] takes out every phone of that value,
    and [find_phone] no longer finds one. *)
Theorem X5_remove_phone_removes_separated_matches
    (r : ContactRecord) (phone : string) :
  no_adjacent (phones r) phone = true ->
  exists r',
    remove_phone r phone = Ok r'
    /\ phones r'
       = filter (fun p => negb (String.eqb (value p) phone)) (phones r)
    /\ find_phone r' phone = None.
Proof.
  intros H. rewrite remove_phone_eq. eexists. split; [reflexivity|].
  cbn [phones]. rewrite (remove_scan_no_adjacent _ _ H). split; [reflexivity|].
  unfold find_phone. cbn [phones]. apply find_phone_loop_None.
  intros p Hp. apply filter_In in Hp as [_ Hp].
  apply negb_true_iff in Hp. now apply String.eqb_neq.
Qed.

Lemma X5_witness :
  exists r',
    remove_phone
      (record_of "Bob" ["1111111111"; "2222222222"; "1111111111"])
      "1111111111" = Ok r'
    /\ map value (phones r') = ["2222222222"].
Proof.
  destruct (X5_remove_phone_removes_separated_matches
              (record_of "Bob" ["1111111111"; "2222222222"; "1111111111"])
              "1111111111" eq_refl) as (r' & E & Hp & _).
  exists r'. split; [exact E|]. rewrite Hp. reflexivity.
Defined.

Lemma remove_scan_app_absent (pre suf : list Field) (phone : string) :
  (forall p, In p pre -> value p <> phone) ->
  remove_scan (pre ++ suf) phone = (pre ++ remove_scan suf phone)%list.
Proof.
  induction pre as [|x pre IH]; intros H; [reflexivity|].
  change ((x :: pre) ++ suf)%list with (x :: (pre ++ suf))%list.
  cbn [remove_scan].
  destruct (String.eqb_spec (value x) phone) as [E|E].
  - exfalso. apply (H x); [now left | exact E].
  - rewrite IH by (intros p Hp; apply H; now right). reflexivity.
Qed.

(** X6: a phone of the given value that comes right after the first one of
    that value is passed over: when the first two phones of that value are
    neighbours, [remove_phone] takes out the first and leaves the second,
    which [find_phone] still finds. *)
Theorem X6_remove_phone_skips_the_next_phone
    (r : ContactRecord) (phone : string)
    (pre rest : list Field) (p q : Field) :
  phones r = (pre ++ p :: q :: rest)%list ->
  (forall x, In x pre -> value x <> phone) ->
  value p = phone -> value q = phone ->
  exists r',
    remove_phone r phone = Ok r'
    /\ phones r' = (pre ++ q :: remove_scan rest phone)%list
    /\ find_phone r' phone = Some q.
Proof.
  intros Hps Hpre Hp Hq. rewrite remove_phone_eq. eexists.
  split; [reflexivity|]. cbn [phones]. rewrite Hps.
  rewrite (remove_scan_app_absent _ _ _ Hpre), remove_scan_two.
  rewrite Hp, String.eqb_refl. split; [reflexivity|].
  unfold find_phone. cbn [phones]. apply find_phone_loop_Some.
  exists pre, (remove_scan rest phone). repeat split; assumption.
Qed.

Lemma X6_witness :
  exists r',
    remove_phone
      (record_of "Bob" ["5555555555"; "1111111111"; "1111111111"])
      "1111111111" = Ok r'
    /\ map value (phones r') = ["5555555555"; "1111111111"].
Proof.
  destruct (X6_remove_phone_skips_the_next_phone
              (record_of "Bob" ["5555555555"; "1111111111"; "1111111111"])
              "1111111111" [mkField "5555555555"] []
              (mkField "1111111111") (mkField "1111111111"))
    as (r' & E & Hp & _).
  - reflexivity.
  - intros x [<-|[]]. discriminate.
  - reflexivity.
  - reflexivity.
  - exists r'. split; [exact E|]. rewrite Hp. reflexivity.
Defined.

(* ------------------------------------------------------------------ *)
(** ** [add_record], [find] and [delete] *)

Section DictMoreFacts.

Context {V : Type}.
Implicit Types (d : dict V) (k : string) (v : V).

Lemma dict_set_absent k v d :
  dict_get k d = None -> dict_set k v d = (d ++ [(k, v)])%list.
Proof.
  induction d as [|[k0 v0] d IH]; simpl; [reflexivity|].
  destruct (String.eqb k0 k); [discriminate|]. intros H. now rewrite IH.
Qed.

Lemma dict_del_absent k d : dict_get k d = None -> dict_del k d = d.
Proof.
  induction d as [|[k0 v0] d IH]; simpl; [reflexivity|].
  destruct (String.eqb k0 k); [discriminate|]. intros H. now rewrite IH.
Qed.

Lemma filter_other_absent k d :
  ~ In k (dict_keys d) ->
  filter (fun e => negb (String.eqb (fst e) k)) d = d.
Proof.
  induction d as [|[k0 v0] d IH]; simpl; [reflexivity|]. intros H.
  destruct (String.eqb_spec k0 k) as [->|Hk]; [tauto|]. simpl.
  rewrite IH; tauto.
Qed.

Lemma dict_del_filter k d :
  dict_wf d -> dict_del k d = filter (fun e => negb (String.eqb (fst e) k)) d.
Proof.
  unfold dict_wf. induction d as [|[k0 v0] d IH]; simpl; [reflexivity|].
  intros Hwf. inversion Hwf as [|? ? Hn Hd]; subst.
  destruct (String.eqb_spec k0 k) as [->|Hk]; simpl.
  - now rewrite filter_other_absent.
  - now rewrite IH.
Qed.

Lemma dict_get_filter_other k k' d :
  k' <> k ->
  dict_get k' (filter (fun e => negb (String.eqb (fst e) k)) d)
  = dict_get k' d.
Proof.
  intros Hne. induction d as [|[k0 v0] d IH]; simpl; [reflexivity|].
  destruct (String.eqb_spec k0 k) as [->|Hk]; simpl.
  - destruct (String.eqb_spec k k'); [congruence | exact IH].
  - now rewrite IH.
Qed.

Lemma dict_get_filter_same k d :
  dict_get k (filter (fun e => negb (String.eqb (fst e) k)) d) = None.
Proof.
  induction d as [|[k0 v0] d IH]; simpl; [reflexivity|].
  destruct (String.eqb k0 k) eqn:E; simpl; [exact IH | now rewrite E].
Qed.

Lemma dict_keys_filter k d :
  dict_keys (filter (fun e => negb (String.eqb (fst e) k)) d)
  = filter (fun k0 => negb (String.eqb k0 k)) (dict_keys d).
Proof.
  induction d as [|[k0 v0] d IH]; simpl; [reflexivity|].
  destruct (String.eqb k0 k); simpl; now rewrite IH.
Qed.

End DictMoreFacts.

(** X7: after [add_record(record)], [find] of the record's name gives the
    record and [find] of any other name gives what it gave before; a name
    that was not in the book goes to the end of the book, a name that was
    there keeps its place. *)
Theorem X7_add_record_then_find (record : ContactRecord) (book : AddressBook) :
  let n := value (name record) in
  find n (add_record record book) = Some record
  /\ (forall k, k <> n -> find k (add_record record book) = find k book)
  /\ (find n book = None ->
      add_record record book = (book ++ [(n, record)])%list)
  /\ (find n book <> None ->
      dict_keys (add_record record book) = dict_keys book)
  /\ (dict_wf book -> dict_wf (add_record record book)).
Proof.
  intros n. unfold add_record, find. fold n. repeat split.
  - apply dict_get_set_same.
  - intros k Hk. now apply dict_get_set_other.
  - apply dict_set_absent.
  - intros H. apply dict_keys_set_present.
    destruct (in_dec string_dec n (dict_keys book)) as [|Hn]; [assumption|].
    apply dict_get_None_keys in Hn. contradiction.
  - apply dict_set_wf.
Qed.

Lemma delete_eq (n : string) (book : AddressBook) :
  delete n book = dict_del n book.
Proof.
  unfold delete, dict_contains.
  destruct (dict_get n book) eqn:E; [reflexivity|].
  now rewrite dict_del_absent.
Qed.

(** X8: in a book (a dictionary, with distinct keys) [delete(name)] takes
    out the entry of that name and nothing else: [find] of the name then
    gives [None], every other entry stays, in the same order; a name that
    is not in the book leaves the book as it is. *)
Theorem X8_delete_removes_only_that_name (n : string) (book : AddressBook) :
  dict_wf book ->
  delete n book = filter (fun e => negb (String.eqb (fst e) n)) book
  /\ find n (delete n book) = None
  /\ (forall k, k <> n -> find k (delete n book) = find k book)
  /\ dict_keys (delete n book)
     = filter (fun k => negb (String.eqb k n)) (dict_keys book)
  /\ dict_wf (delete n book)
  /\ (find n book = None -> delete n book = book).
Proof.
  intros Hwf. rewrite delete_eq, (dict_del_filter n book Hwf). unfold find.
  repeat split.
  - apply dict_get_filter_same.
  - intros k Hk. now apply dict_get_filter_other.
  - apply dict_keys_filter.
  - unfold dict_wf. rewrite dict_keys_filter. now apply NoDup_filter.
  - intros H. apply filter_other_absent. now apply dict_get_None_keys.
Qed.

Lemma X8_witness :
  let book := add_record (record_of "Bob" ["2222222222"])
                (add_record (record_of "Ann" ["1111111111"]) empty_book) in
  find "Ann" (delete "Ann" book) = None
  /\ find "Bob" (delete "Ann" book) = find "Bob" book.
Proof.
  intros book.
  assert (Hwf : dict_wf book).
  { unfold dict_wf. simpl. repeat constructor; simpl; intuition discriminate. }
  destruct (X8_delete_removes_only_that_name "Ann" book Hwf)
    as (_ & Hf & Ho & _).
  split; [exact Hf | apply Ho; discriminate].
Defined.

(** X9: adding a record under a name that is not in the book and deleting
    that name again gives the book back. *)
Theorem X9_add_record_then_delete (record : ContactRecord) (book : AddressBook) :
  find (value (name record)) book = None ->
  delete (value (name record)) (add_record record book) = book.
Proof.
  intros H. rewrite delete_eq. unfold add_record, find in *.
  rewrite (dict_set_absent _ _ _ H).
  induction book as [|[k0 v0] book IH]; simpl in *.
  - now rewrite String.eqb_refl.
  - destruct (String.eqb k0 (value (name record))); [discriminate|].
    now rewrite IH.
Qed.

Lemma X9_witness :
  let book := add_record (record_of "Ann" ["1111111111"]) empty_book in
  delete "Bob" (add_record (record_of "Bob" ["2222222222"]) book) = book.
Proof.
  intros book.
  exact (X9_add_record_then_delete (record_of "Bob" ["2222222222"]) book
           eq_refl).
Defined.

(* ------------------------------------------------------------------ *)
(** ** What the handlers do to the book *)

Ltac unfold_handlers :=
  unfold handle_add, handle_change, handle_phone, handle_all,
    handle_add_birthday, handle_show_birthday, handle_birthdays,
    input_error, handle_add_func, handle_change_func, handle_phone_func,
    handle_all_func, handle_add_birthday_func, handle_show_birthday_func,
    handle_birthdays_func, bind, get_book, lift, store, modify_book, ret,
    getitem, Record_init, add_phone, add_birthday, edit_phone, rbind.

Lemma handle_add_eq (n phone : string) (book : AddressBook) :
  is_ok (Name n) = true -> is_ok (Phone phone) = true ->
  handle_add [n; phone] book
  = (Ok (VStr "Contact added."),
     add_record (mkRecord (mkField n) [mkField phone] None) book).
Proof.
  intros Hn Hp. unfold_handlers.
  rewrite (Name_ok_eq n), Hn, (Phone_ok_eq phone), Hp. reflexivity.
Qed.

Lemma handle_phone_eq (n : string) (record : ContactRecord) (first : Field)
    (others : list Field) (book : AddressBook) :
  find n book = Some record -> phones record = first :: others ->
  handle_phone [n] book = (Ok (VStr (value first)), book).
Proof. intros Hf Hp. unfold_handlers. now rewrite Hf, Hp. Qed.

(** X10: [handle_add] with a name and a phone that pass validation answers
    "Contact added." and stores a new record with that one phone and no
    birthday under the name, in place of any record that was there (whose
    phones and birthday are gone); the other contacts stay; [handle_phone]
    then answers the phone and [handle_show_birthday] that there is no
    birthday. *)
Theorem X10_handle_add_replaces_contact
    (n phone : string) (book : AddressBook) :
  is_ok (Name n) = true -> is_ok (Phone phone) = true ->
  exists book',
    handle_add [n; phone] book = (Ok (VStr "Contact added."), book')
    /\ find n book' = Some (mkRecord (mkField n) [mkField phone] None)
    /\ (forall k, k <> n -> find k book' = find k book)
    /\ handle_phone [n] book' = (Ok (VStr phone), book')
    /\ handle_show_birthday [n] book'
       = (Ok (VStr "Contact not found or birthday not specified."), book').
Proof.
  intros Hn Hp. rewrite (handle_add_eq n phone book Hn Hp).
  eexists. split; [reflexivity|].
  assert (Hf : find n (add_record (mkRecord (mkField n) [mkField phone] None)
                         book)
               = Some (mkRecord (mkField n) [mkField phone] None))
    by apply dict_get_set_same.
  repeat split.
  - exact Hf.
  - intros k Hk. unfold find, add_record. cbn [name value].
    now apply dict_get_set_other.
  - exact (handle_phone_eq n _ _ _ _ Hf eq_refl).
  - unfold_handlers. now rewrite Hf.
Qed.

Lemma X10_witness :
  let book := [("Bob", mkRecord (mkField "Bob")
                         [mkField "1111111111"; mkField "2222222222"]
                         (Some (mkField "15.06.2024")))] in
  exists book',
    handle_add ["Bob"; "3333333333"] book
      = (Ok (VStr "Contact added."), book')
    /\ find "Bob" book'
       = Some (mkRecord (mkField "Bob") [mkField "3333333333"] None).
Proof.
  intros book.
  destruct (X10_handle_add_replaces_contact "Bob" "3333333333" book
              eq_refl eq_refl) as (book' & E & Hf & _).
  exists book'. split; assumption.
Defined.

(** X11: for a contact with at least one phone, [handle_change] answers
    "Contact updated." whatever the new text is (it is not validated),
    gives the first phone, and every phone equal to it, the new text, and
    keeps the name, the birthday, the other phones, the other contacts and
    the order of the book; [handle_phone] then answers the new text. *)
Theorem X11_handle_change_sets_first_phone
    (n x : string) (book : AddressBook) (record : ContactRecord)
    (first : Field) (others : list Field) :
  find n book = Some record ->
  phones record = first :: others ->
  exists book' record',
    handle_change [n; x] book = (Ok (VStr "Contact updated."), book')
    /\ find n book' = Some record'
    /\ name record' = name record
    /\ birthday record' = birthday record
    /\ phones record'
       = mkField x
         :: map (fun p => if String.eqb (value p) (value first)
                          then mkField x else p) others
    /\ (forall k, k <> n -> find k book' = find k book)
    /\ dict_keys book' = dict_keys book
    /\ handle_phone [n] book' = (Ok (VStr x), book').
Proof.
  intros Hf Hp.
  set (record' := mkRecord (name record)
                    (edit_phone_loop (phones record) (value first) x)
                    (birthday record)).
  assert (E : handle_change [n; x] book
              = (Ok (VStr "Contact updated."), dict_set n record' book)).
  { unfold_handlers. unfold record'. rewrite Hf, Hp. reflexivity. }
  assert (Hps : phones record'
                = mkField x
                  :: map (fun p => if String.eqb (value p) (value first)
                                   then mkField x else p) others).
  { unfold record'. cbn [phones]. rewrite Hp. cbn [edit_phone_loop].
    now rewrite String.eqb_refl, edit_phone_loop_map. }
  assert (Hf' : find n (dict_set n record' book) = Some record')
    by apply dict_get_set_same.
  exists (dict_set n record' book), record'. repeat split; try assumption.
  - intros k Hk. unfold find. now apply dict_get_set_other.
  - apply dict_keys_set_present.
    destruct (in_dec string_dec n (dict_keys book)) as [|Hn]; [assumption|].
    apply dict_get_None_keys in Hn. unfold find in Hf. congruence.
  - exact (handle_phone_eq n record' _ _ _ Hf' Hps).
Qed.

Lemma X11_witness :
  let book := [("Bob", record_of "Bob" ["1111111111"; "2222222222"])] in
  exists book',
    handle_change ["Bob"; "not a phone"] book
      = (Ok (VStr "Contact updated."), book')
    /\ handle_phone ["Bob"] book' = (Ok (VStr "not a phone"), book').
Proof.
  intros book.
  destruct (X11_handle_change_sets_first_phone "Bob" "not a phone" book
              (record_of "Bob" ["1111111111"; "2222222222"])
              (mkField "1111111111") [mkField "2222222222"]
              eq_refl eq_refl)
    as (book' & record' & E & _ & _ & _ & _ & _ & _ & Hph).
  exists book'. split; assumption.
Defined.

(** X12: for a contact of the book and a text that [Birthday] accepts,
    [handle_add_birthday] answers "Birthday added." and stores the text as
    the birthday of the contact, over any earlier one, keeping the name,
    the phones, the other contacts and the order of the book;
    [handle_show_birthday] then answers the text. *)
Theorem X12_handle_add_birthday_then_show
    (n b : string) (book : AddressBook) (record : ContactRecord) :
  find n book = Some record ->
  is_ok (Birthday b) = true ->
  exists book',
    handle_add_birthday [n; b] book = (Ok (VStr "Birthday added."), book')
    /\ find n book'
       = Some (mkRecord (name record) (phones record) (Some (mkField b)))
    /\ (forall k, k <> n -> find k book' = find k book)
    /\ dict_keys book' = dict_keys book
    /\ handle_show_birthday [n] book' = (Ok (VStr b), book')
    /\ fst (handle_phone [n] book') = fst (handle_phone [n] book).
Proof.
  intros Hf Hb.
  set (record' := mkRecord (name record) (phones record) (Some (mkField b))).
  assert (E : handle_add_birthday [n; b] book
              = (Ok (VStr "Birthday added."), dict_set n record' book)).
  { unfold_handlers. rewrite Hf, (Birthday_ok_eq b), Hb. reflexivity. }
  assert (Hf' : find n (dict_set n record' book) = Some record')
    by apply dict_get_set_same.
  exists (dict_set n record' book). repeat split; try assumption.
  - intros k Hk. unfold find. now apply dict_get_set_other.
  - apply dict_keys_set_present.
    destruct (in_dec string_dec n (dict_keys book)) as [|Hn]; [assumption|].
    apply dict_get_None_keys in Hn. unfold find in Hf. congruence.
  - unfold_handlers. now rewrite Hf'.
  - unfold_handlers. rewrite Hf', Hf. unfold record'. cbn [phones].
    now destruct (phones record).
Qed.

Lemma X12_witness :
  let book := [("Bob", record_of "Bob" ["1111111111"])] in
  exists book',
    handle_add_birthday ["Bob"; "29.02.2020"] book
      = (Ok (VStr "Birthday added."), book')
    /\ handle_show_birthday ["Bob"] book' = (Ok (VStr "29.02.2020"), book').
Proof.
  intros book.
  destruct (X12_handle_add_birthday_then_show "Bob" "29.02.2020" book
              (record_of "Bob" ["1111111111"]) eq_refl eq_refl)
    as (book' & E & _ & _ & _ & Hs & _).
  exists book'. split; assumption.
Defined.





(* ------------------------------------------------------------------ *)
(** ** [handle_birthdays] *)

Lemma dict_of_keys {V : Type} (f : string -> V) (d : dict V) :
  dict_wf d ->
  (forall k, In k (dict_keys d) -> dict_get k d = Some (f k)) ->
  d = map (fun k => (k, f k)) (dict_keys d).
Proof.
  unfold dict_wf. induction d as [|[k v] d IH]; simpl; [reflexivity|].
  intros Hwf H. inversion Hwf as [|? ? Hn Hd]; subst. f_equal.
  - specialize (H k (or_introl eq_refl)). rewrite String.eqb_refl in H.
    congruence.
  - apply IH; [assumption|]. intros k' Hk'.
    specialize (H k' (or_intror Hk')).
    destruct (String.eqb_spec k k') as [->|]; [contradiction | exact H].
Qed.

Lemma BUCKETS_NoDup : NoDup BUCKETS.
Proof. unfold BUCKETS. repeat constructor; simpl; intuition discriminate. Qed.

Lemma get_birthdays_per_week_eq (today : date) (book : AddressBook) :
  valid_birthdays book ->
  get_birthdays_per_week today book
  = Ok (map (fun day => (day, names_in today day book)) BUCKETS).
Proof.
  intros Hv. unfold get_birthdays_per_week.
  destruct (birthdays_loop_spec today (dict_values book) Hv empty_week eq_refl)
    as (week & E & Hk & Hget).
  rewrite E. f_equal. rewrite <- Hk. apply dict_of_keys.
  - unfold dict_wf. rewrite Hk. apply BUCKETS_NoDup.
  - intros day Hday. rewrite Hk in Hday.
    now rewrite (Hget day [] (empty_week_get day Hday)).
Qed.

Lemma birthday_messages_map (N : string -> list string) (days : list string) :
  birthday_messages (map (fun day => (day, N day)) days)
  = flat_map (fun day => bucket_message day (N day)) days.
Proof.
  induction days as [|day days IH]; [reflexivity|].
  cbn [map birthday_messages flat_map]. rewrite IH.
  unfold bucket_message at 2. now destruct (N day).
Qed.

Lemma flat_map_nil {A B : Type} (f : A -> list B) (l : list A) :
  flat_map f l = [] <-> forall x, In x l -> f x = [].
Proof.
  induction l as [|a l IH]; simpl.
  - split; [intros _ x [] | reflexivity].
  - split.
    + intros H. apply app_eq_nil in H as [Ha Hl].
      intros x [<-|Hx]; [assumption | now apply IH].
    + intros H. rewrite (H a (or_introl eq_refl)). apply IH.
      intros x Hx. apply H. now right.
Qed.

(** X14: for a book whose stored birthdays are valid, [handle_birthdays]
    answers, for each of the six buckets in their order that has names,
    the one line "Next <bucket>: <names joined by ', '>", so that the
    weekend bucket is announced as "Next Next Monday"; the book is not
    changed. *)
Theorem X14_handle_birthdays_messages (today : date) (book : AddressBook) :
  valid_birthdays book ->
  handle_birthdays today book
  = (Ok (VList (flat_map
                  (fun day => bucket_message day (names_in today day book))
                  BUCKETS)), book).
Proof.
  intros Hv. unfold_handlers.
  rewrite (get_birthdays_per_week_eq today book Hv).
  now rewrite birthday_messages_map.
Qed.

Lemma X14_witness :
  let book :=
    [("Bob", mkRecord (mkField "Bob") [] (Some (mkField "12.6.2024")));
     ("Alice", mkRecord (mkField "Alice") [] (Some (mkField "15.06.2024")));
     ("Carl", mkRecord (mkField "Carl") [] (Some (mkField "16.06.2024")))] in
  handle_birthdays (ymd2ord 2024 6 11) book
  = (Ok (VList ["Next Wednesday: Bob"; "Next Next Monday: Alice, Carl"]),
     book).
Proof.
  intros book.
  assert (Hv : valid_birthdays book) by (repeat constructor).
  rewrite (X14_handle_birthdays_messages (ymd2ord 2024 6 11) book Hv).
  reflexivity.
Defined.

(** X15: for a book whose stored birthdays are valid, [handle_birthdays]
    answers the empty list exactly when no record has its stored date in
    the seven days from today on. *)
Theorem X15_handle_birthdays_empty (today : date) (book : AddressBook) :
  valid_birthdays book ->
  (fst (handle_birthdays today book) = Ok (VList []) <->
   forall record, In record (dict_values book) ->
                  upcoming today record = None).
Proof.
  intros Hv. unfold_handlers.
  rewrite (get_birthdays_per_week_eq today book Hv), birthday_messages_map.
  cbn [fst]. split.
  - intros [= H] record Hin.
    destruct (upcoming today record) as [d|] eqn:Hup; [|reflexivity].
    exfalso.
    pose proof (proj1 (flat_map_nil
                         (fun day => bucket_message day
                                       (names_in today day book)) BUCKETS)
                  H (bucket_of d) (bucket_of_In d)) as Hb.
    cbv beta in Hb.
    assert (Hn : In (value (name record)) (names_in today (bucket_of d) book)).
    { apply in_map_iff. exists record. split; [reflexivity|].
      apply filter_In. split; [assumption|].
      unfold in_bucket. rewrite Hup. apply String.eqb_refl. }
    unfold bucket_message in Hb.
    destruct (names_in today (bucket_of d) book); [destruct Hn | discriminate].
  - intros H. f_equal. f_equal. apply flat_map_nil. intros day _.
    unfold names_in.
    replace (filter (in_bucket today day) (dict_values book))
      with (@nil ContactRecord); [reflexivity|].
    symmetry. induction (dict_values book) as [|r rs IH]; [reflexivity|].
    cbn [filter]. unfold in_bucket at 1.
    rewrite (H r (or_introl eq_refl)).
    apply IH. intros record Hin. apply H. now right.
Qed.

Lemma X15_witness :
  let book :=
    [("Dan", mkRecord (mkField "Dan") [] (Some (mkField "18.06.2024")));
     ("Eve", mkRecord (mkField "Eve") [] None)] in
  fst (handle_birthdays (ymd2ord 2024 6 11) book) = Ok (VList []).
Proof.
  intros book.
  assert (Hv : valid_birthdays book) by (repeat constructor).
  apply (X15_handle_birthdays_empty (ymd2ord 2024 6 11) book Hv).
  intros record [<-|[<-|[]]]; reflexivity.
Defined.

(* ------------------------------------------------------------------ *)
(** ** What the handlers never do *)

Ltac unfold_call :=
  cbn [call];
  unfold handle_add, handle_change, handle_phone, handle_all,
    handle_add_birthday, handle_show_birthday, handle_birthdays.

(** The book after each of the three handlers that write. *)
Lemma handle_add_cases (args : list string) (book : AddressBook) :
  (exists n phone,
      args = [n; phone] /\ is_ok (Name n) = true
      /\ is_ok (Phone phone) = true
      /\ handle_add args book
         = (Ok (VStr "Contact added."),
            add_record (mkRecord (mkField n) [mkField phone] None) book))
  \/ snd (handle_add args book) = book.
Proof.
  destruct args as [|n [|phone [|? ?]]]; try (right; reflexivity).
  destruct (is_ok (Name n)) eqn:Hn, (is_ok (Phone phone)) eqn:Hp.
  - left. exists n, phone. repeat split; try assumption.
    now apply handle_add_eq.
  - right. unfold_handlers.
    rewrite (Name_ok_eq n), Hn, (Phone_ok_eq phone), Hp. reflexivity.
  - right. unfold_handlers. rewrite (Name_ok_eq n), Hn. reflexivity.
  - right. unfold_handlers. rewrite (Name_ok_eq n), Hn. reflexivity.
Qed.

Lemma handle_change_cases (args : list string) (book : AddressBook) :
  (exists n x record first others,
      args = [n; x] /\ find n book = Some record
      /\ phones record = first :: others
      /\ handle_change args book
         = (Ok (VStr "Contact updated."),
            dict_set n (mkRecord (name record)
                          (edit_phone_loop (phones record) (value first) x)
                          (birthday record)) book))
  \/ snd (handle_change args book) = book.
Proof.
  destruct args as [|n [|x [|? ?]]]; try (right; reflexivity).
  destruct (find n book) as [record|] eqn:Hf.
  - destruct (phones record) as [|first others] eqn:Hp.
    + right. unfold_handlers. rewrite Hf, Hp. reflexivity.
    + left. exists n, x, record, first, others.
      split; [reflexivity|]. split; [exact Hf|]. split; [exact Hp|].
      unfold_handlers. rewrite Hf, Hp. reflexivity.
  - right. unfold_handlers. rewrite Hf. reflexivity.
Qed.

Lemma handle_add_birthday_cases (args : list string) (book : AddressBook) :
  (exists n b record,
      args = [n; b] /\ find n book = Some record
      /\ is_ok (Birthday b) = true
      /\ handle_add_birthday args book
         = (Ok (VStr "Birthday added."),
            dict_set n (mkRecord (name record) (phones record)
                          (Some (mkField b))) book))
  \/ snd (handle_add_birthday args book) = book.
Proof.
  destruct args as [|n [|b [|? ?]]]; try (right; reflexivity).
  destruct (find n book) as [record|] eqn:Hf.
  - destruct (is_ok (Birthday b)) eqn:Hb.
    + left. exists n, b, record. repeat split; try assumption.
      unfold_handlers. rewrite Hf, (Birthday_ok_eq b), Hb. reflexivity.
    + right. unfold_handlers. rewrite Hf, (Birthday_ok_eq b), Hb.
      reflexivity.
  - right. unfold_handlers. rewrite Hf. reflexivity.
Qed.

Lemma read_only_unchanged (today : date) (h : handler) (args : list string)
    (book : AddressBook) :
  read_only h = true -> snd (call today h args book) = book.
Proof.
  destruct h; try discriminate; intros _; unfold_call;
    rewrite input_error_snd.
  - unfold handle_phone_func.
    destruct args as [|n [|? ?]]; try reflexivity.
    unfold bind, get_book, lift, ret.
    destruct (find n book) as [record|]; [|reflexivity].
    now destruct (getitem (phones record) 0).
  - reflexivity.
  - unfold handle_show_birthday_func.
    destruct args as [|n [|? ?]]; try reflexivity.
    unfold bind, get_book, ret.
    now destruct (find n book) as [[? ? [b|]]|].
  - unfold handle_birthdays_func, bind, get_book, lift, ret.
    now destruct (get_birthdays_per_week today book).
Qed.

(** Rewrites the book after a call of a handler that only reads. *)
Ltac read_only_call :=
  match goal with
  | |- context [call ?today ?h ?args ?book] =>
      rewrite (read_only_unchanged today h args book eq_refl)
  end.

(** X16: a handler changes the book only when it answers its message of
    success: [handle_phone], [handle_all], [handle_show_birthday] and
    [handle_birthdays] never change it, and [handle_add], [handle_change]
    and [handle_add_birthday] leave it as it was whenever they answer
    anything but "Contact added.", "Contact updated." and "Birthday
    added.". *)
Theorem X16_book_changes_only_on_success
    (today : date) (h : handler) (args : list string) (book : AddressBook) :
  (read_only h = true -> snd (call today h args book) = book)
  /\ (snd (call today h args book) <> book ->
      (h = H_add
       /\ fst (call today h args book) = Ok (VStr "Contact added."))
      \/ (h = H_change
          /\ fst (call today h args book) = Ok (VStr "Contact updated."))
      \/ (h = H_add_birthday
          /\ fst (call today h args book) = Ok (VStr "Birthday added."))).
Proof.
  split; [apply read_only_unchanged|]. intros Hne.
  destruct h;
    try (exfalso; apply Hne; now apply read_only_unchanged).
  - left. split; [reflexivity|]. cbn [call] in *.
    destruct (handle_add_cases args book)
      as [(n & phone & _ & _ & _ & E)|E]; [now rewrite E | contradiction].
  - right. left. split; [reflexivity|]. cbn [call] in *.
    destruct (handle_change_cases args book)
      as [(n & x & r & f & o & _ & _ & _ & E)|E];
      [now rewrite E | contradiction].
  - right. right. split; [reflexivity|]. cbn [call] in *.
    destruct (handle_add_birthday_cases args book)
      as [(n & b & r & _ & _ & _ & E)|E]; [now rewrite E | contradiction].
Qed.

Lemma find_Some_key (n : string) (record : ContactRecord)
    (book : AddressBook) :
  find n book = Some record -> In n (dict_keys book).
Proof.
  intros Hf. destruct (in_dec string_dec n (dict_keys book)) as [|Hn];
    [assumption|].
  apply dict_get_None_keys in Hn. unfold find in Hf. congruence.
Qed.

Lemma call_wf (today : date) (h : handler) (args : list string)
    (book : AddressBook) :
  dict_wf book -> dict_wf (snd (call today h args book)).
Proof.
  intros Hwf.
  destruct h;
    try (now read_only_call);
    cbn [call].
  - destruct (handle_add_cases args book)
      as [(n & phone & _ & _ & _ & E)|E]; rewrite E; [|exact Hwf].
    now apply dict_set_wf.
  - destruct (handle_change_cases args book)
      as [(n & x & r & f & o & _ & _ & _ & E)|E]; rewrite E; [|exact Hwf].
    now apply dict_set_wf.
  - destruct (handle_add_birthday_cases args book)
      as [(n & b & r & _ & _ & _ & E)|E]; rewrite E; [|exact Hwf].
    now apply dict_set_wf.
Qed.

(** X17: no handler takes a contact out of the book or moves one: after a
    call the names of the book are the names of before in the same order,
    with at most one new name at the end, which only [handle_add] puts
    there; distinct keys stay distinct. *)
Theorem X17_handlers_keep_the_names
    (today : date) (h : handler) (args : list string) (book : AddressBook) :
  (dict_keys (snd (call today h args book)) = dict_keys book
   \/ exists n phone,
        h = H_add /\ args = [n; phone] /\ find n book = None
        /\ dict_keys (snd (call today h args book))
           = (dict_keys book ++ [n])%list)
  /\ (dict_wf book -> dict_wf (snd (call today h args book))).
Proof.
  destruct h;
    try (read_only_call; split; [now left | tauto]);
    cbn [call].
  - destruct (handle_add_cases args book)
      as [(n & phone & -> & _ & _ & E)|E]; rewrite E;
      [|split; [now left | tauto]].
    cbn [snd]. unfold add_record. cbn [name value]. split.
    + destruct (find n book) as [r|] eqn:Hf.
      * left. apply dict_keys_set_present. now apply (find_Some_key n r).
      * right. exists n, phone.
        split; [reflexivity|]. split; [reflexivity|]. split; [exact Hf|].
        apply dict_keys_set_absent. now apply dict_get_None_keys.
    + apply dict_set_wf.
  - destruct (handle_change_cases args book)
      as [(n & x & r & f & o & _ & Hf & _ & E)|E]; rewrite E;
      [|split; [now left | tauto]].
    cbn [snd]. split; [|apply dict_set_wf].
    left. apply dict_keys_set_present. now apply (find_Some_key n r).
  - destruct (handle_add_birthday_cases args book)
      as [(n & b & r & _ & Hf & _ & E)|E]; rewrite E;
      [|split; [now left | tauto]].
    cbn [snd]. split; [|apply dict_set_wf].
    left. apply dict_keys_set_present. now apply (find_Some_key n r).
Qed.

Lemma edit_phone_loop_nonempty (ps : list Field) (old_phone new_phone : string) :
  ps <> [] -> edit_phone_loop ps old_phone new_phone <> [].
Proof. destruct ps; [congruence | discriminate]. Qed.

Lemma record_sound_call (today : date) (h : handler) (args : list string)
    (book : AddressBook) :
  Forall record_sound book ->
  Forall record_sound (snd (call today h args book)).
Proof.
  intros Hs.
  assert (Hfind : forall n record, find n book = Some record ->
                                   record_sound (n, record)).
  { intros n record Hf. apply dict_get_In in Hf.
    rewrite Forall_forall in Hs. exact (Hs _ Hf). }
  destruct h;
    try (now read_only_call);
    cbn [call].
  - destruct (handle_add_cases args book)
      as [(n & phone & _ & Hn & _ & E)|E]; rewrite E; [|exact Hs].
    cbn [snd]. apply dict_set_Forall; [|exact Hs].
    unfold record_sound. cbn. repeat split; [exact Hn | discriminate].
  - destruct (handle_change_cases args book)
      as [(n & x & r & f & o & _ & Hf & Hp & E)|E]; rewrite E; [|exact Hs].
    cbn [snd]. apply dict_set_Forall; [|exact Hs].
    destruct (Hfind n r Hf) as (Hname & Hok & Hph & Hb).
    unfold record_sound. cbn [fst snd name phones birthday] in *.
    repeat split; try assumption. now apply edit_phone_loop_nonempty.
  - destruct (handle_add_birthday_cases args book)
      as [(n & b & r & _ & Hf & Hb & E)|E]; rewrite E; [|exact Hs].
    cbn [snd]. apply dict_set_Forall; [|exact Hs].
    destruct (Hfind n r Hf) as (Hname & Hok & Hph & _).
    unfold record_sound. cbn [fst snd name phones birthday value] in *.
    repeat split; assumption.
Qed.

Lemma built_sound (book : AddressBook) :
  built book -> dict_wf book /\ Forall record_sound book.
Proof.
  induction 1 as [|today h args book Hb [Hwf Hs]].
  - split; constructor.
  - split.
    + now apply call_wf.
    + now apply record_sound_call.
Qed.

(** X18: in every book that the handlers build from the empty one, the
    names are distinct and every record is stored under its own name, has
    a name that [Name] accepts, at least one phone and, if it has a
    birthday, one that [Birthday] accepts. *)
Theorem X18_built_books_are_sound (book : AddressBook) :
  built book ->
  dict_wf book
  /\ forall n record,
       find n book = Some record ->
       value (name record) = n
       /\ is_ok (Name n) = true
       /\ phones record <> []
       /\ match birthday record with
          | Some b => is_ok (Birthday (value b)) = true
          | None => True
          end.
Proof.
  intros Hb. destruct (built_sound book Hb) as [Hwf Hs].
  split; [exact Hwf|]. intros n record Hf. apply dict_get_In in Hf.
  rewrite Forall_forall in Hs. exact (Hs _ Hf).
Qed.

Lemma X18_witness :
  let book :=
    snd (call 739048 H_add_birthday ["Bob"; "29.02.2020"]
      (snd (call 739048 H_change ["Bob"; "abc"]
        (snd (call 739048 H_add ["Bob"; "1234567890"] empty_book))))) in
  find "Bob" book
  = Some (mkRecord (mkField "Bob") [mkField "abc"]
            (Some (mkField "29.02.2020")))
  /\ dict_wf book.
Proof.
  intros book. split; [reflexivity|].
  apply (X18_built_books_are_sound book).
  unfold book. repeat constructor.
Defined.



(* ------------------------------------------------------------------ *)
(** ** Splitting a command line *)

Lemma split_from_word (t : string) :
  forall cur rest,
    all_chars (fun c => negb (isspace_char c)) t = true ->
    split_from cur (t ++ rest) = split_from (cur ++ t) rest.
Proof.
  induction t as [|c t IH]; intros cur rest H; cbn [append].
  - now rewrite append_nil_r.
  - cbn [all_chars] in H. apply andb_true_iff in H as [Hc Ht].
    apply negb_true_iff in Hc. cbn [split_from]. rewrite Hc.
    rewrite (IH _ _ Ht). now rewrite append_assoc.
Qed.

Lemma token_parts (t : string) :
  token t = true ->
  nonempty t = true /\ all_chars (fun c => negb (isspace_char c)) t = true.
Proof. unfold token. intros H. now apply andb_true_iff in H. Qed.

Lemma split_from_token (t rest : string) :
  token t = true -> split_from "" (t ++ rest) = split_from t rest.
Proof.
  intros H. apply token_parts in H as [_ H]. now rewrite split_from_word.
Qed.

Lemma split_join (toks : list string) :
  Forall (fun t => token t = true) toks ->
  split (join " " toks) = toks.
Proof.
  unfold split. induction 1 as [|t toks Ht Htoks IH]; [reflexivity|].
  destruct toks as [|t' toks].
  - cbn [join]. rewrite <- (append_nil_r t) at 1.
    rewrite (split_from_token t "" Ht). cbn [split_from].
    apply token_parts in Ht as [-> _]. reflexivity.
  - change (join " " (t :: t' :: toks))
      with (t ++ String " " (join " " (t' :: toks))).
    rewrite (split_from_token t _ Ht). cbn [split_from].
    change (isspace_char " ") with true. cbv iota.
    apply token_parts in Ht as [-> _]. now rewrite IH.
Qed.

(** X20: a line made of words joined by single blanks is split into those
    words again: [split] undoes [" ".join] on lists of words that are not
    empty and hold no white space. *)
Theorem X20_split_join_round_trip (toks : list string) :
  Forall (fun t => token t = true) toks ->
  split (join " " toks) = toks.
Proof. apply split_join. Qed.

Lemma X20_witness :
  split (join " " ["add"; "Bob"; "1234567890"]) = ["add"; "Bob"; "1234567890"].
Proof.
  apply X20_split_join_round_trip. repeat constructor.
Defined.

Lemma token_snoc (cur : string) (c : ascii) :
  cur = "" \/ token cur = true -> isspace_char c = false ->
  token (cur ++ String c "") = true.
Proof.
  intros Hcur Hc. unfold token.
  assert (Hall : forall s, all_chars (fun c => negb (isspace_char c)) s = true ->
            all_chars (fun c => negb (isspace_char c)) (s ++ String c "") = true).
  { induction s as [|a s IH]; cbn [append all_chars].
    - now rewrite Hc.
    - intros H. apply andb_true_iff in H as [-> H]. now rewrite IH. }
  destruct Hcur as [->|H].
  - cbn. now rewrite Hc.
  - apply token_parts in H as [Hn Ha]. rewrite (Hall _ Ha).
    destruct cur; [discriminate | reflexivity].
Qed.

Lemma split_from_tokens (s : string) :
  forall cur, cur = "" \/ token cur = true ->
              Forall (fun t => token t = true) (split_from cur s).
Proof.
  induction s as [|c s IH]; intros cur Hcur; cbn [split_from].
  - destruct Hcur as [->|H]; [constructor|].
    pose proof (token_parts _ H) as [-> _]. repeat constructor. exact H.
  - destruct (isspace_char c) eqn:Hc.
    + destruct Hcur as [->|H]; cbn [nonempty].
      * apply IH. now left.
      * pose proof (token_parts _ H) as [-> _].
        constructor; [exact H | apply IH; now left].
    + apply IH. right. now apply token_snoc.
Qed.

Lemma split_from_nil (s : string) :
  forall cur, split_from cur s = [] <->
              cur = "" /\ all_chars isspace_char s = true.
Proof.
  induction s as [|c s IH]; intros cur; cbn [split_from all_chars].
  - destruct cur; cbn [nonempty]; split; try discriminate; try tauto.
    intros [? _]. discriminate.
  - destruct (isspace_char c) eqn:Hc; cbn [andb].
    + destruct cur; cbn [nonempty].
      * rewrite IH. tauto.
      * split; [discriminate | intros [? _]; discriminate].
    + rewrite IH. split; [|intros [_ ?]; discriminate].
      intros [H _]. destruct cur; discriminate.
Qed.

Lemma split_words (s : string) :
  Forall (fun t => token t = true) (split s)
  /\ (split s = [] <-> all_chars isspace_char s = true).
Proof.
  split.
  - apply split_from_tokens. now left.
  - unfold split. rewrite split_from_nil. tauto.
Qed.

(** X21: every word that [split] gives is not empty and holds no white
    space, and [split] gives no word exactly when the line is empty or all
    white space. *)
Theorem X21_split_gives_words (s : string) :
  Forall (fun t => token t = true) (split s)
  /\ (split s = [] <-> all_chars isspace_char s = true).
Proof. exact (split_words s). Qed.

Lemma lstrip_ws_token (t : string) : token t = true -> lstrip_ws t = t.
Proof.
  intros H. apply token_parts in H as [_ H]. destruct t as [|c t];
    [reflexivity|]. cbn [all_chars] in H.
  apply andb_true_iff in H as [Hc _]. apply negb_true_iff in Hc.
  cbn [lstrip_ws]. now rewrite Hc.
Qed.

Lemma rstrip_ws_word (t : string) :
  all_chars (fun c => negb (isspace_char c)) t = true -> rstrip_ws t = t.
Proof.
  induction t as [|c t IH]; [reflexivity|]. cbn [all_chars rstrip_ws].
  intros H. apply andb_true_iff in H as [Hc Ht]. apply negb_true_iff in Hc.
  rewrite Hc, (IH Ht). reflexivity.
Qed.

Lemma strip_token (t : string) : token t = true -> strip t = t.
Proof.
  intros H. unfold strip. rewrite (lstrip_ws_token t H).
  apply rstrip_ws_word. now apply token_parts in H.
Qed.

Lemma parse_input_eq (user_input : string) (book : AddressBook) :
  parse_input user_input book
  = (Ok match split user_input with
        | [] => VStr "Give me name and phone please."
        | cmd :: args => VList (lower cmd :: args)
        end, book).
Proof.
  unfold parse_input, input_error, lift, parse_input_func.
  pose proof (proj1 (split_words user_input)) as Ht.
  destruct (split user_input) as [|cmd args]; [reflexivity|].
  inversion Ht as [|? ? Hc _]; subst. now rewrite (strip_token cmd Hc).
Qed.

(** X22: [parse_input] raises nothing and leaves the book alone; on a line
    that is empty or all white space it gives the text "Give me name and
    phone please." in place of a tuple, and on any other line it gives the
    first word in small letters followed by the other words as they were
    typed. *)
Theorem X22_parse_input_result (user_input : string) (book : AddressBook) :
  parse_input user_input book
  = (Ok match split user_input with
        | [] => VStr "Give me name and phone please."
        | cmd :: args => VList (lower cmd :: args)
        end, book)
  /\ (all_chars isspace_char user_input = true ->
      parse_input user_input book
      = (Ok (VStr "Give me name and phone please."), book)).
Proof.
  split; [apply parse_input_eq|]. intros Hb. rewrite parse_input_eq.
  apply (proj2 (split_words user_input)) in Hb. now rewrite Hb.
Qed.

(* ------------------------------------------------------------------ *)
(** ** The loop of [main] *)

Lemma main_step_blank (today : date) (user_input : string)
    (book : AddressBook) :
  split user_input = [] ->
  main_step today user_input book = ([VStr "Invalid command."], book, Running).
Proof.
  intros H. unfold main_step. rewrite parse_input_eq, H. reflexivity.
Qed.

Lemma main_step_words (today : date) (user_input cmd : string)
    (args : list string) (book : AddressBook) :
  split user_input = cmd :: args ->
  main_step today user_input book = dispatch today (lower cmd) args book.
Proof.
  intros H. unfold main_step. rewrite parse_input_eq, H. reflexivity.
Qed.

(** X23: on a line that is empty or all white space [main] prints "Invalid
    command." (the error text of [parse_input] is unpacked into its
    characters and "G" is no command), leaves the book as it is and reads
    on. *)
Theorem X23_main_blank_line (today : date) (user_input : string)
    (book : AddressBook) :
  all_chars isspace_char user_input = true ->
  main_step today user_input book = ([VStr "Invalid command."], book, Running).
Proof.
  intros H. apply main_step_blank. now apply split_words.
Qed.

Lemma X23_witness :
  main_step 739048 "   " empty_book
  = ([VStr "Invalid command."], empty_book, Running).
Proof. apply X23_main_blank_line. reflexivity. Defined.

Lemma is_exit_dispatch (today : date) (user_input cmd : string)
    (args : list string) (book : AddressBook) :
  split user_input = cmd :: args ->
  existsb (String.eqb (lower cmd)) ["close"; "exit"] = is_exit user_input.
Proof. intros H. unfold is_exit. now rewrite H. Qed.

Lemma main_step_exit (today : date) (user_input : string)
    (book : AddressBook) :
  is_exit user_input = true ->
  main_step today user_input book = ([VStr "Good bye!"], book, Ended).
Proof.
  unfold is_exit. destruct (split user_input) as [|cmd args] eqn:E;
    [discriminate|]. intros H.
  rewrite (main_step_words today user_input cmd args book E).
  unfold dispatch. now rewrite H.
Qed.

(** X24: a line whose first word is "close" or "exit", in small or capital
    letters and whatever follows it, makes [main] print "Good bye!" and
    leave the loop: the lines after it are not read and the book is as it
    was. *)
Theorem X24_main_exit_ends_the_loop
    (today : date) (user_input : string) (rest : list (date * string))
    (book : AddressBook) :
  is_exit user_input = true ->
  main_loop ((today, user_input) :: rest) book
  = ([VStr "Good bye!"], book, Ended).
Proof.
  intros H. cbn [main_loop]. now rewrite (main_step_exit today _ book H).
Qed.

Lemma X24_witness :
  main_loop [(739048, "EXIT now"); (739048, "add Bob 1234567890")] empty_book
  = ([VStr "Good bye!"], empty_book, Ended).
Proof. apply X24_main_exit_ends_the_loop. reflexivity. Defined.

Lemma printed_call (today : date) (h : handler) (args : list string)
    (book : AddressBook) :
  exists v, printed (call today h args book)
            = ([v], snd (call today h args book), Running).
Proof.
  destruct (call_returns today h args book) as [v E]. exists v.
  now rewrite E.
Qed.

Lemma printed_each_call (today : date) (h : handler) (args : list string)
    (book : AddressBook) :
  exists out, printed_each (call today h args book)
              = (out, snd (call today h args book), Running).
Proof.
  destruct (call_returns today h args book) as [v E].
  exists (map VStr (items v)). now rewrite E.
Qed.

(** A turn that does not leave the loop prints something, goes on, and
    leaves the book that the handler it called left, if it called one. *)
Lemma dispatch_running (today : date) (command : string) (args : list string)
    (book : AddressBook) :
  existsb (String.eqb command) ["close"; "exit"] = false ->
  exists out book',
    dispatch today command args book = (out, book', Running)
    /\ (existsb (String.eqb command) ["add"; "change"; "add-birthday"] = false
        -> book' = book).
Proof.
  intros Hx. unfold dispatch. rewrite Hx. cbn [existsb].
  destruct (String.eqb command "hello"); [eauto|].
  destruct (String.eqb command "add").
  { destruct (printed_call today H_add args book) as [v E].
    cbn [call] in E. rewrite E. do 2 eexists. split; [reflexivity|].
    discriminate. }
  destruct (String.eqb command "change").
  { destruct (printed_call today H_change args book) as [v E].
    cbn [call] in E. rewrite E. do 2 eexists. split; [reflexivity|].
    discriminate. }
  destruct (String.eqb command "phone").
  { destruct (printed_call today H_phone args book) as [v E].
    cbn [call] in E. rewrite E. do 2 eexists. split; [reflexivity|].
    intros _. exact (read_only_unchanged today H_phone args book eq_refl). }
  destruct (String.eqb command "all").
  { destruct (printed_each_call today H_all args book) as [out E].
    cbn [call] in E. rewrite E. do 2 eexists. split; [reflexivity|].
    intros _. exact (read_only_unchanged today H_all args book eq_refl). }
  destruct (String.eqb command "add-birthday").
  { destruct (printed_call today H_add_birthday args book) as [v E].
    cbn [call] in E. rewrite E. do 2 eexists. split; [reflexivity|].
    discriminate. }
  destruct (String.eqb command "show-birthday").
  { destruct (printed_call today H_show_birthday args book) as [v E].
    cbn [call] in E. rewrite E. do 2 eexists. split; [reflexivity|].
    intros _.
    exact (read_only_unchanged today H_show_birthday args book eq_refl). }
  destruct (String.eqb command "birthdays").
  { destruct (printed_each_call today H_birthdays args book) as [out E].
    cbn [call] in E. rewrite E. do 2 eexists. split; [reflexivity|].
    intros _.
    exact (read_only_unchanged today H_birthdays args book eq_refl). }
  destruct (String.eqb command "help"); eauto.
Qed.

Lemma main_step_running (today : date) (user_input : string)
    (book : AddressBook) :
  is_exit user_input = false ->
  exists out book',
    main_step today user_input book = (out, book', Running)
    /\ (is_write user_input = false -> book' = book).
Proof.
  unfold is_exit, is_write.
  destruct (split user_input) as [|cmd args] eqn:E; intros Hx.
  - rewrite (main_step_blank today user_input book E). eauto.
  - rewrite (main_step_words today user_input cmd args book E).
    now apply dispatch_running.
Qed.

(** X25: [main] is never stopped by an exception, whatever lines it reads:
    after any lines its loop has been left exactly when one of them began
    with "close" or "exit", and otherwise it is reading on. *)
Theorem X25_main_never_crashes
    (inputs : list (date * string)) (book : AddressBook) :
  snd (main_loop inputs book)
  = if existsb (fun i => is_exit (snd i)) inputs then Ended else Running.
Proof.
  revert book. induction inputs as [|[today user_input] rest IH];
    intros book; [reflexivity|].
  cbn [main_loop existsb snd].
  destruct (is_exit user_input) eqn:Hx.
  - now rewrite (main_step_exit today _ book Hx).
  - destruct (main_step_running today user_input book Hx)
      as (out & book' & E & _).
    rewrite E. cbn [orb]. rewrite <- (IH book').
    now destruct (main_loop rest book') as [[out' book''] st].
Qed.

(** X26: a line changes the book only if its first word is "add", "change"
    or "add-birthday" (in small or capital letters): every other line,
    known command or not, leaves the book as it was. *)
Theorem X26_main_writes_only_on_three_commands
    (today : date) (user_input : string) (book : AddressBook) :
  is_write user_input = false ->
  snd (fst (main_step today user_input book)) = book.
Proof.
  intros Hw. destruct (is_exit user_input) eqn:Hx.
  - now rewrite (main_step_exit today _ book Hx).
  - destruct (main_step_running today user_input book Hx)
      as (out & book' & E & Hb).
    rewrite E. cbn [fst snd]. now apply Hb.
Qed.

Lemma X26_witness :
  let book := [("Bob", record_of "Bob" ["1234567890"])] in
  snd (fst (main_step 739048 "PHONE Bob" book)) = book
  /\ snd (fst (main_step 739048 "delete Bob" book)) = book.
Proof.
  intros book. split.
  - apply X26_main_writes_only_on_three_commands. reflexivity.
  - apply X26_main_writes_only_on_three_commands. reflexivity.
Defined.

(** X27: [main] looks at a line only through its words, and at the first
    word without regard to capital and small letters: two lines with the
    same arguments and the same command up to the case of its letters are
    handled alike, whatever white space they have. *)
Theorem X27_main_command_case_insensitive
    (today : date) (line1 line2 cmd1 cmd2 : string) (args : list string)
    (book : AddressBook) :
  split line1 = cmd1 :: args ->
  split line2 = cmd2 :: args ->
  lower cmd1 = lower cmd2 ->
  main_step today line1 book = main_step today line2 book.
Proof.
  intros H1 H2 Hl.
  rewrite (main_step_words today line1 cmd1 args book H1).
  rewrite (main_step_words today line2 cmd2 args book H2).
  now rewrite Hl.
Qed.

Lemma X27_witness :
  main_step 739048 "ADD Bob 1234567890" empty_book
  = main_step 739048 "  add   Bob 1234567890 " empty_book.
Proof.
  apply (X27_main_command_case_insensitive 739048 _ _ "ADD" "add"
           ["Bob"; "1234567890"]); reflexivity.
Defined.

Lemma isalpha_not_space (c : ascii) :
  isalpha_char c = true -> negb (isspace_char c) = true.
Proof. unfold isalpha_char, isspace_char. intros H. chars. Qed.

Lemma isdigit_not_space (c : ascii) :
  isdigit_char c = true -> negb (isspace_char c) = true.
Proof. unfold isdigit_char, isspace_char. intros H. chars. Qed.

Lemma Name_token (n : string) : is_ok (Name n) = true -> token n = true.
Proof.
  rewrite Name_eq.
  destruct (Nat.leb_spec 2 (String.length n)) as [Hl|Hl]; [|discriminate].
  destruct (all_chars isalpha_char n) eqn:Ha; [|discriminate]. intros _.
  unfold token. rewrite (all_chars_impl _ _ n isalpha_not_space Ha).
  destruct n; [simpl in Hl; lia | reflexivity].
Qed.

Lemma Phone_token (p : string) : is_ok (Phone p) = true -> token p = true.
Proof.
  rewrite Phone_eq.
  destruct (Nat.eqb_spec (String.length p) 10) as [Hl|Hl]; [|discriminate].
  destruct (all_chars isdigit_char p) eqn:Ha; [|discriminate]. intros _.
  unfold token. rewrite (all_chars_impl _ _ p isdigit_not_space Ha).
  destruct p; [discriminate | reflexivity].
Qed.

(** X28: typing "add <name> <phone>" with a name and a phone that pass
    validation and then "phone <name>" makes [main] print "Contact added."
    and then the phone; the book then holds the new record under the
    name. *)
Theorem X28_main_add_then_phone
    (t1 t2 : date) (n phone : string) (book : AddressBook) :
  is_ok (Name n) = true -> is_ok (Phone phone) = true ->
  main_loop [(t1, "add " ++ n ++ " " ++ phone); (t2, "phone " ++ n)] book
  = ([VStr "Contact added."; VStr phone],
     add_record (mkRecord (mkField n) [mkField phone] None) book,
     Running).
Proof.
  intros Hn Hp.
  pose proof (Name_token n Hn) as Tn. pose proof (Phone_token phone Hp) as Tp.
  assert (S1 : split ("add " ++ n ++ " " ++ phone) = ["add"; n; phone]).
  { change ("add " ++ n ++ " " ++ phone) with (join " " ["add"; n; phone]).
    apply split_join. repeat constructor; assumption. }
  assert (S2 : split ("phone " ++ n) = ["phone"; n]).
  { change ("phone " ++ n) with (join " " ["phone"; n]).
    apply split_join. repeat constructor; assumption. }
  cbn [main_loop].
  rewrite (main_step_words t1 _ "add" [n; phone] book S1).
  change (dispatch t1 (lower "add") [n; phone] book)
    with (printed (handle_add [n; phone] book)).
  rewrite (handle_add_eq n phone book Hn Hp). cbn [printed].
  rewrite (main_step_words t2 _ "phone" [n] _ S2).
  set (book' := add_record (mkRecord (mkField n) [mkField phone] None) book).
  change (dispatch t2 (lower "phone") [n] book')
    with (printed (handle_phone [n] book')).
  assert (Hf : find n book'
               = Some (mkRecord (mkField n) [mkField phone] None))
    by apply dict_get_set_same.
  rewrite (handle_phone_eq n _ (mkField phone) [] book' Hf eq_refl).
  reflexivity.
Qed.

Lemma X28_witness :
  main_loop [(739048, "add Bob 1234567890"); (739049, "phone Bob")] empty_book
  = ([VStr "Contact added."; VStr "1234567890"],
     [("Bob", record_of "Bob" ["1234567890"])], Running).
Proof.
  exact (X28_main_add_then_phone 739048 739049 "Bob" "1234567890" empty_book
           eq_refl eq_refl).
Defined.

Lemma printed_book (r : res pyval * AddressBook) :
  snd (fst (printed r)) = snd r.
Proof. now destruct r as [[v|e] b]. Qed.

Lemma printed_each_book (r : res pyval * AddressBook) :
  snd (fst (printed_each r)) = snd r.
Proof. now destruct r as [[v|e] b]. Qed.

Lemma dispatch_built (today : date) (command : string) (args : list string)
    (book : AddressBook) :
  built book -> built (snd (fst (dispatch today command args book))).
Proof.
  intros Hb. unfold dispatch.
  repeat match goal with
         | |- context [if ?b then _ else _] => destruct b
         end;
    rewrite ?printed_book, ?printed_each_book;
    first [ exact Hb
          | exact (built_call today H_add args book Hb)
          | exact (built_call today H_change args book Hb)
          | exact (built_call today H_phone args book Hb)
          | exact (built_call today H_add_birthday args book Hb)
          | exact (built_call today H_show_birthday args book Hb)
          | exact (built_call today H_birthdays args book Hb) ].
Qed.

Lemma main_step_built (today : date) (user_input : string)
    (book : AddressBook) :
  built book -> built (snd (fst (main_step today user_input book))).
Proof.
  intros Hb. destruct (split user_input) as [|cmd args] eqn:E.
  - now rewrite (main_step_blank today user_input book E).
  - rewrite (main_step_words today user_input cmd args book E).
    now apply dispatch_built.
Qed.

Lemma main_loop_built (inputs : list (date * string)) :
  forall book, built book -> built (snd (fst (main_loop inputs book))).
Proof.
  induction inputs as [|[today user_input] rest IH]; intros book Hb;
    [exact Hb|].
  cbn [main_loop]. pose proof (main_step_built today user_input book Hb) as H1.
  destruct (main_step today user_input book) as [[out book'] st].
  cbn [fst snd] in H1. destruct st; try exact H1.
  specialize (IH book' H1).
  now destruct (main_loop rest book') as [[out' book''] st'].
Qed.

(** X29: whatever lines [main] reads, its book is one that the handlers
    build from the empty one; so its names are distinct, every record is
    stored under its own name, which [Name] accepts, and has at least one
    phone. *)
Theorem X29_main_book_is_sound (inputs : list (date * string)) :
  let book := snd (fst (main inputs)) in
  built book
  /\ dict_wf book
  /\ forall n record,
       find n book = Some record ->
       value (name record) = n /\ is_ok (Name n) = true
       /\ phones record <> [].
Proof.
  intros book.
  assert (Hb : built book).
  { subst book. unfold main.
    pose proof (main_loop_built inputs empty_book built_empty) as H.
    now destruct (main_loop inputs empty_book) as [[out b] st]. }
  split; [exact Hb|]. destruct (built_sound book Hb) as [Hwf Hs].
  split; [exact Hwf|]. intros n record Hf. apply dict_get_In in Hf.
  rewrite Forall_forall in Hs. destruct (Hs _ Hf) as (H1 & H2 & H3 & _).
  repeat split; assumption.
Qed.
